(** * Snippet-aware workspace edits of coc-rust-analyzer

    A shallow embedding of [parseSnippet], [countLines] and
    [applySnippetWorkspaceEdit] of [src/commands.ts], with the calls the
    command makes to the editor's [workspace] object kept as explicit
    events, and the properties of the snippet-edit applier proved about
    that embedding.

    JavaScript strings are modelled as [string], one character for one
    code unit, and the JavaScript numbers that hold line numbers, columns,
    offsets and lengths as [Z]. *)

From Stdlib Require Import ZArith Lia Bool Ascii String.
From stdpp Require Import base option list strings gmap.

Local Open Scope string_scope.
Local Open Scope Z_scope.

#[local] Arguments String.append : simpl nomatch.

(** ** JavaScript strings *)

Module JS.

Definition LF : ascii := "010"%char.

(** [s.length] *)
Definition length (s : string) : Z := Z.of_nat (String.length s).

Fixpoint take (n : nat) (s : string) : string :=
  match n, s with
  | S n', String c s' => String c (take n' s')
  | _, _ => ""
  end.

Fixpoint drop (n : nat) (s : string) : string :=
  match n, s with
  | S n', String _ s' => drop n' s'
  | _, _ => s
  end.

(** [s.substr(start, length)]: a negative [start] counts from the end,
    and the length is clamped to what is left of the string. *)
Definition substr (s : string) (start len : Z) : string :=
  let size := length s in
  let from := if start <? 0 then Z.max (size + start) 0 else Z.min start size in
  let n := Z.min (Z.max len 0) (size - from) in
  take (Z.to_nat n) (drop (Z.to_nat from) s).

(** [s.startsWith(p)] *)
Fixpoint startsWith (p s : string) : bool :=
  match p, s with
  | "", _ => true
  | String a p', String b s' => Ascii.eqb a b && startsWith p' s'
  | String _ _, "" => false
  end.

(** [s.indexOf(search)] as a natural number, [None] for -1. *)
Fixpoint indexOf (s search : string) : option nat :=
  if startsWith search s then Some 0%nat
  else match s with
       | "" => None
       | String _ s' => S <$> indexOf s' search
       end.

(** [s.lastIndexOf(c)] for a one-character search string: the index of
    the last occurrence, or -1. *)
Fixpoint lastIndexOf (s : string) (c : ascii) : Z :=
  match s with
  | "" => -1
  | String a s' =>
      let r := lastIndexOf s' c in
      if 0 <=? r then r + 1 else if Ascii.eqb a c then 0 else -1
  end.

(** Whether the character [c] occurs in [s]. *)
Fixpoint has (c : ascii) (s : string) : bool :=
  match s with
  | "" => false
  | String a s' => Ascii.eqb a c || has c s'
  end.

(** The text after the last line break of [s], all of [s] when it has
    none. *)
Fixpoint lastLine (s : string) : string :=
  match s with
  | "" => ""
  | String a s' =>
      if has LF s' then lastLine s'
      else if Ascii.eqb a LF then s' else s
  end.

(** Whether a replacement template holds one of the dollar patterns
    that [GetSubstitution] expands for a string pattern. *)
Fixpoint hasPattern (t : string) : bool :=
  match t with
  | "" => false
  | String c t' =>
      (Ascii.eqb c "$"
       && match t' with
          | String d _ =>
              Ascii.eqb d "$" || Ascii.eqb d "&" || Ascii.eqb d "`" || Ascii.eqb d "'"
          | "" => false
          end)
      || hasPattern t'
  end.

(** [GetSubstitution] of ECMAScript for a replacement made with a
    string pattern: there are no captures and no named groups, so of
    the dollar patterns only [$$], [$&], [$`] and [$'] are special;
    [$n] and [$<] stand for themselves. *)
Fixpoint GetSubstitution (matched before after template : string) : string :=
  match template with
  | "" => ""
  | String c t =>
      if Ascii.eqb c "$" then
        match t with
        | String d t' =>
            if Ascii.eqb d "$" then String "$" (GetSubstitution matched before after t')
            else if Ascii.eqb d "&" then matched +:+ GetSubstitution matched before after t'
            else if Ascii.eqb d "`" then before +:+ GetSubstitution matched before after t'
            else if Ascii.eqb d "'" then after +:+ GetSubstitution matched before after t'
            else String c (GetSubstitution matched before after t)
        | "" => String c ""
        end
      else String c (GetSubstitution matched before after t)
  end.

(** [s.replace(search, replacement)] with a string pattern: only the
    first occurrence is replaced, and the replacement is a template. *)
Definition replace (s search replacement : string) : string :=
  match indexOf s search with
  | None => s
  | Some pos =>
      let before := take pos s in
      let after := drop (pos + String.length search) s in
      before +:+ GetSubstitution search before after replacement +:+ after
  end.

(** The string of one line break. *)
Definition nl : string := String LF "".

(** [s.includes(search)] *)
Definition includes (s search : string) : bool :=
  match indexOf s search with
  | Some _ => true
  | None => false
  end.

(** [s.repeat(count)]: a negative count raises a [RangeError], which is
    [None] here. *)
Definition repeat (s : string) (count : Z) : option string :=
  if count <? 0 then None
  else Some (Nat.iter (Z.to_nat count) (String.append s) "").

(** [s.split(sep)] for a separator of one character: the pieces between
    the separators, of which there is always at least one. *)
Fixpoint split (sep : ascii) (s : string) : list string :=
  match s with
  | "" => [""]
  | String c s' =>
      if Ascii.eqb c sep then "" :: split sep s'
      else match split sep s' with
           | piece :: pieces => String c piece :: pieces
           | [] => [String c ""]
           end
  end.

(** [xs.join(sep)] for an array of strings. *)
Fixpoint join (sep : string) (xs : list string) : string :=
  match xs with
  | [] => ""
  | x :: xs' =>
      match xs' with
      | [] => x
      | _ :: _ => x +:+ sep +:+ join sep xs'
      end
  end.

End JS.

(** ** The snippet marker parser *)

(** The result of [snip.match(re)] for a regular expression without the
    [g] flag: the index of the leftmost match, the matched text [m[0]]
    and the second capture group [m[2]], [None] when the group did not
    take part in the match.  [m[1]] is not read by the code. *)
Record RegExpMatchArray := {
  index : nat;
  m_0 : string;
  m_2 : option string
}.

Module Marker.

(** The text of a marker, from its default text: [None] is the bare
    marker. *)
Definition text (d : option string) : string :=
  match d with
  | None => "$0"
  | Some d => "${0:" +:+ d +:+ "}"
  end.

(** The tail of the second alternative: the longest run of characters
    other than the closing brace, followed by a closing brace.
    Backtracking cannot help: a shorter run is followed by a character
    that is not a brace. *)
Fixpoint untilBrace (s : string) : option string :=
  match s with
  | "" => None
  | String c s' =>
      if Ascii.eqb c "}" then Some ""
      else String c <$> untilBrace s'
  end.

(** The pattern of [parseSnippet] tried at the start of [s]: a dollar
    sign, then either the digit 0 or an opening brace, 0, a colon, the
    captured default text and a closing brace.  The alternatives are
    tried in that order. *)
Definition matchHere (s : string) : option (string * option string) :=
  if JS.startsWith "$0" s then Some ("$0", None)
  else if JS.startsWith "${0:" s then
    match untilBrace (JS.drop 4 s) with
    | Some d => Some (text (Some d), Some d)
    | None => None
    end
  else None.

(** [snip.match(re)] for that pattern: the start positions are tried
    from left to right. *)
Fixpoint exec (s : string) : option RegExpMatchArray :=
  match matchHere s with
  | Some (m0, m2) => Some {| index := 0; m_0 := m0; m_2 := m2 |}
  | None =>
      match s with
      | "" => None
      | String _ s' =>
          (fun m => {| index := S (index m); m_0 := m_0 m; m_2 := m_2 m |})
            <$> exec s'
      end
  end.

End Marker.

(** [parseSnippet] of [commands.ts]. *)
Definition parseSnippet (snip : string) : option (string * (Z * Z)) :=
  match Marker.exec snip with
  | None => None
  | Some m =>
      let placeholder := default "" (m_2 m) in
      let range := (Z.of_nat (index m), JS.length placeholder) in
      let insert := JS.replace snip (m_0 m) placeholder in
      Some (insert, range)
  end.

(** [countLines] of [commands.ts]: the number of matches of [/\n/g]. *)
Fixpoint countLines (text : string) : Z :=
  match text with
  | "" => 0
  | String c text' => (if Ascii.eqb c JS.LF then 1 else 0) + countLines text'
  end.

(** ** The protocol's data model

    The types of [vscode-languageserver-protocol] the command uses. *)

Record Position := { line : Z; character : Z }.

Record Range := { start : Position; end_ : Position }.

Record TextEdit := { range : Range; newText : string }.

Record TextDocumentIdentifier := { uri : string; version : option Z }.

Record TextDocumentEdit := {
  textDocument : TextDocumentIdentifier;
  edits : list TextEdit
}.

(** An element of [documentChanges]: a text-document edit or one of the
    resource operations. *)
Inductive DocumentChange :=
| TextDocumentEdit_ (change : TextDocumentEdit)
| CreateFile (target : string)
| RenameFile (oldUri newUri : string)
| DeleteFile (target : string).

(** Both fields of a [WorkspaceEdit] are optional; [changes] keeps the
    insertion order of the object's keys. *)
Record WorkspaceEdit := {
  changes : option (list (string * list TextEdit));
  documentChanges : option (list DocumentChange)
}.

Definition Range_create (startLine startCharacter endLine endCharacter : Z) : Range :=
  {| start := {| line := startLine; character := startCharacter |};
     end_ := {| line := endLine; character := endCharacter |} |}.

Definition TextEdit_replace (r : Range) (text : string) : TextEdit :=
  {| range := r; newText := text |}.

Definition TextDocumentEdit_create (doc : TextDocumentIdentifier) (es : list TextEdit)
  : TextDocumentEdit :=
  {| textDocument := doc; edits := es |}.

(** ** The calls to the editor

    [applySnippetWorkspaceEdit] is an [async] function whose only effects
    are awaited calls on coc.nvim's [workspace].  A program is a tree of
    such calls: each call carries the continuation that receives its
    answer, so that a call is issued only once the one before it has
    been answered. *)

Inductive call :=
| applyEdit (edit : WorkspaceEdit)
| document
| loadFile (target : string)
| jumpTo (target : string)
| selectRange (r : Range).

(** What [await] yields for each call.  Of the active document only its
    [uri] is read; the results of the other calls are dropped. *)
Definition answer (c : call) : Type :=
  match c with
  | applyEdit _ => bool
  | document => string
  | loadFile _ | jumpTo _ | selectRange _ => unit
  end.

Inductive Async (R : Type) : Type :=
| Ret (r : R)
| Await (c : call) (k : answer c -> Async R).

Arguments Ret {R} r.
Arguments Await {R} c k.

Fixpoint bind {A B : Type} (f : A -> Async B) (p : Async A) : Async B :=
  match p with
  | Ret a => f a
  | Await c k => Await c (fun x => bind f (k x))
  end.

#[global] Instance Async_ret : MRet Async := @Ret.
#[global] Instance Async_bind : MBind Async := @bind.

Definition await (c : call) : Async (answer c) := Await c Ret.

(** [for (const x of xs) body], the loop's variables threaded as [st]. *)
Fixpoint forOf {A St : Type} (body : St -> A -> Async St) (xs : list A) (st : St)
  : Async St :=
  match xs with
  | [] => Ret st
  | x :: xs' => st' ← body st x; forOf body xs' st'
  end.

(** ** The grouped edit applier *)

(** The loop's variables: [selection] and [lineDelta]. *)
Definition LoopState : Type := option Range * Z.

(** The selection computed from a parsed snippet, lines 281 to 288. *)
Definition snippetSelection (indel : TextEdit) (lineDelta : Z)
    (parsed : string * (Z * Z)) : Range :=
  let '(newText, (placeholderStart, placeholderLength)) := parsed in
  let prefix := JS.substr newText 0 placeholderStart in
  let lastNewline := JS.lastIndexOf prefix JS.LF in
  let startLine := line (start (range indel)) + lineDelta + countLines prefix in
  let startColumn :=
    if lastNewline =? -1
    then character (start (range indel)) + placeholderStart
    else JS.length prefix - lastNewline - 1 in
  let endColumn := startColumn + placeholderLength in
  Range_create startLine startColumn startLine endColumn.

(** The body of the loop over [change.edits], lines 278 to 297. *)
Definition applyIndel (change : TextDocumentEdit) (st : LoopState) (indel : TextEdit)
  : Async LoopState :=
  let '(selection, lineDelta) := st in
  match parseSnippet (newText indel) with
  | Some parsed =>
      let selection := Some (snippetSelection indel lineDelta parsed) in
      let newChange :=
        TextDocumentEdit_create (textDocument change)
          [TextEdit_replace (range indel) (fst parsed)] in
      let wsEdit :=
        {| changes := None; documentChanges := Some [TextDocumentEdit_ newChange] |} in
      await (applyEdit wsEdit) ;;
      Ret (selection, lineDelta)
  | None =>
      let lineDelta :=
        countLines (newText indel)
        - (line (end_ (range indel)) - line (start (range indel))) in
      let wsEdit :=
        {| changes := None; documentChanges := Some [TextDocumentEdit_ change] |} in
      await (applyEdit wsEdit) ;;
      Ret (selection, lineDelta)
  end.

(** Lines 300 to 309: the selection is placed only when one was computed
    and the active document is the edited one. *)
Definition placeSelection (change : TextDocumentEdit) (selection : option Range)
  : Async unit :=
  match selection with
  | Some sel =>
      current ← await document;
      if negb (String.eqb current (uri (textDocument change))) then
        await (loadFile (uri (textDocument change))) ;;
        await (jumpTo (uri (textDocument change))) ;;
        Ret tt
      else
        await (selectRange sel)
  | None => Ret tt
  end.

(** The loop of lines 277 to 298 with its initial variables. *)
Definition applyGroup (change : TextDocumentEdit) : Async LoopState :=
  forOf (applyIndel change) (edits change) (None, 0).

(** [applySnippetWorkspaceEdit] of [commands.ts].  [TextDocumentEdit.is]
    is the match on the kind of the first document change. *)
Definition applySnippetWorkspaceEdit (edit : WorkspaceEdit) : Async unit :=
  match documentChanges edit with
  | None | Some [] => Ret tt
  | Some (change :: _) =>
      match change with
      | TextDocumentEdit_ change =>
          st ← applyGroup change;
          placeSelection change (fst st)
      | _ => Ret tt
      end
  end.

(** ** Running a program against a document store

    The document store is coc.nvim's, not this repository's: it is a
    parameter.  A store answers each call and moves to its next state. *)

Class DocumentStore (W : Type) := handle : forall c : call, W -> answer c * W.

(** The outcome of a run: the value returned, the store left behind and
    the calls made, in order. *)
Record Outcome (R W : Type) := {
  result : R;
  store : W;
  calls : list call
}.

Arguments result {R W} o.
Arguments store {R W} o.
Arguments calls {R W} o.

Fixpoint run {W : Type} `{DocumentStore W} {R : Type} (p : Async R) (w : W)
  : Outcome R W :=
  match p with
  | Ret r => {| result := r; store := w; calls := [] |}
  | Await c k =>
      let '(a, w') := handle c w in
      let o := run (k a) w' in
      {| result := result o; store := store o; calls := c :: calls o |}
  end.

(** ** A document store of plain texts *)

Module Editor.

(** Modelled from the spec: the document store of its section on
    external interfaces, which exposes the current active document,
    edit application by document identity and ordered replacement
    spans, selection placement and document activation.  A document is
    its text; the spans of one group are applied one after the other,
    in the order of the list. *)
Record t := {
  buffers : gmap string string;
  active : string;
  selection : option Range
}.

(** Modelled from the spec: the place a replacement span addresses.  The
    offset of a position in a text; a column past the end of its line
    stops at the line break, a line past the end at the end. *)
Fixpoint offsetAt (text : string) (l c : nat) {struct text} : nat :=
  match text with
  | "" => 0%nat
  | String a text' =>
      match l with
      | O =>
          match c with
          | O => 0%nat
          | S c' => if Ascii.eqb a JS.LF then 0%nat else S (offsetAt text' 0 c')
          end
      | S l' =>
          S (if Ascii.eqb a JS.LF then offsetAt text' l' c else offsetAt text' l c)
      end
  end.

(** Modelled from the spec: the offset of a protocol position. *)
Definition offsetOf (text : string) (p : Position) : nat :=
  offsetAt text (Z.to_nat (line p)) (Z.to_nat (character p)).

(** Modelled from the spec: the application of one replacement span. *)
Definition applyTextEdit (text : string) (e : TextEdit) : string :=
  JS.take (offsetOf text (start (range e))) text
  +:+ newText e
  +:+ JS.drop (offsetOf text (end_ (range e))) text.

(** Modelled from the spec: the ordered replacement spans of a group,
    applied in their order. *)
Definition applyTextEdits (es : list TextEdit) (text : string) : string :=
  fold_left applyTextEdit es text.

(** Modelled from the spec: edit application by document identity; a
    document that is not loaded is left alone. *)
Definition applyToDocument (target : string) (es : list TextEdit)
    (bs : gmap string string) : gmap string string :=
  alter (applyTextEdits es) target bs.

(** Modelled from the spec: the store applies text-document edits; it
    has no operation on files. *)
Definition applyDocumentChange (bs : gmap string string) (c : DocumentChange)
  : gmap string string :=
  match c with
  | TextDocumentEdit_ change =>
      applyToDocument (uri (textDocument change)) (edits change) bs
  | _ => bs
  end.

(** Modelled from the spec: the application of a workspace edit, whose
    [documentChanges] come before its [changes]. *)
Definition applyWorkspaceEdit (edit : WorkspaceEdit) (bs : gmap string string)
  : gmap string string :=
  match documentChanges edit, changes edit with
  | Some cs, _ => fold_left applyDocumentChange cs bs
  | None, Some m => fold_left (fun bs '(u, es) => applyToDocument u es bs) m bs
  | None, None => bs
  end.

(** Modelled from the spec: the four operations of the store.  Loading a
    file makes it a document of the store, jumping to it makes it the
    active one. *)
#[global] Instance documentStore : DocumentStore t := fun c =>
  match c as c return t -> answer c * t with
  | applyEdit edit => fun w =>
      (true, {| buffers := applyWorkspaceEdit edit (buffers w);
                active := active w; selection := selection w |})
  | document => fun w => (active w, w)
  | loadFile target => fun w =>
      (tt, {| buffers := partial_alter (fun o => Some (default "" o)) target (buffers w);
              active := active w; selection := selection w |})
  | jumpTo target => fun w =>
      (tt, {| buffers := buffers w; active := target; selection := selection w |})
  | selectRange r => fun w =>
      (tt, {| buffers := buffers w; active := active w; selection := Some r |})
  end.

(** A store with one document, which is the active one. *)
Definition open (target text : string) : t :=
  {| buffers := {[ target := text ]}; active := target; selection := None |}.

End Editor.

(** The store a call leaves behind. *)
Definition after {W : Type} `{DocumentStore W} (c : call) (w : W) : W :=
  snd (handle c w).

(** The default text of a match never holds a closing brace. *)
Definition wellFormed (d : option string) : Prop :=
  forall t, d = Some t -> JS.has "}" t = false.

(** ** The loop, turn by turn *)

(** The workspace edit that holds one text edit of a document. *)
Definition isolated (doc : TextDocumentIdentifier) (r : Range) (text : string)
  : WorkspaceEdit :=
  {| changes := None;
     documentChanges :=
       Some [TextDocumentEdit_
               {| textDocument := doc;
                  edits := [{| range := r; newText := text |}] |}] |}.

(** The workspace edit that holds a whole group. *)
Definition whole (change : TextDocumentEdit) : WorkspaceEdit :=
  {| changes := None; documentChanges := Some [TextDocumentEdit_ change] |}.

Definition hasMarker (indel : TextEdit) : bool :=
  match parseSnippet (newText indel) with
  | Some _ => true
  | None => false
  end.

(** Inserted lines minus replaced lines. *)
Definition lineChange (indel : TextEdit) : Z :=
  countLines (newText indel) - (line (end_ (range indel)) - line (start (range indel))).

(** What one turn of the loop passes to [workspace.applyEdit]. *)
Definition issued (change : TextDocumentEdit) (indel : TextEdit) : WorkspaceEdit :=
  match parseSnippet (newText indel) with
  | Some parsed => isolated (textDocument change) (range indel) (fst parsed)
  | None => whole change
  end.

(** What one turn of the loop does to [selection] and [lineDelta]. *)
Definition nextState (st : LoopState) (indel : TextEdit) : LoopState :=
  match parseSnippet (newText indel) with
  | Some parsed => (Some (snippetSelection indel (snd st) parsed), snd st)
  | None => (fst st, lineChange indel)
  end.

(** The value of [lineDelta] once the loop has gone through [prior]. *)
Definition lineDeltaAfter (prior : list TextEdit) : Z :=
  snd (fold_left nextState prior (None, 0)).

(** A call that names no document other than [doc]: an edit application
    made of one text-document edit of [doc], or a switch to [doc]. *)
Definition confinedTo (doc : TextDocumentIdentifier) (c : call) : Prop :=
  match c with
  | applyEdit e =>
      changes e = None
      /\ exists es, documentChanges e
                   = Some [TextDocumentEdit_ {| textDocument := doc; edits := es |}]
  | loadFile target | jumpTo target => target = uri doc
  | document | selectRange _ => True
  end.

(** The drift of the spec's wording: the sum, over all the edits that
    come before, of inserted lines minus replaced lines. *)
Definition accumulatedDrift (prior : list TextEdit) : Z :=
  foldr (fun e acc => lineChange e + acc) 0 prior.

(** ** The requests of [lsp_ext.ts] and the formatting of an expansion *)

(** [{ uri }] as a text document identifier. *)
Definition identifier (target : string) : TextDocumentIdentifier :=
  {| uri := target; version := None |}.

(** The interfaces and request types of [lsp_ext.ts] that the commands
    below use. *)
Module ra.

Module ExpandMacroParams.
Record t := {
  textDocument : TextDocumentIdentifier;
  position : Position
}.
End ExpandMacroParams.

Record ExpandedMacro := {
  name : string;
  expansion : string
}.

Module RunnablesParams.
Record t := {
  textDocument : TextDocumentIdentifier;
  position : option Position
}.
End RunnablesParams.

Record Runnable := {
  range : Range;
  label : string;
  bin : string;
  args : list string;
  extraArgs : list string;
  env : list (string * string);
  cwd : option string
}.

Record SsrParams := {
  query : string;
  parseOnly : bool
}.

(** A request type together with the parameters it is sent with. *)
Inductive request :=
| analyzerStatus
| expandMacro (params : ExpandMacroParams.t)
| runnables (params : RunnablesParams.t)
| ssr (params : SsrParams).

Definition method (r : request) : string :=
  match r with
  | analyzerStatus => "rust-analyzer/analyzerStatus"
  | expandMacro _ => "rust-analyzer/expandMacro"
  | runnables _ => "rust-analyzer/runnables"
  | ssr _ => "experimental/ssr"
  end.

(** The response shape of each request type. *)
Definition response (r : request) : Type :=
  match r with
  | analyzerStatus => string
  | expandMacro _ => option ExpandedMacro
  | runnables _ => list Runnable
  | ssr _ => WorkspaceEdit
  end.

End ra.

(** [codeFormat] of [commands.ts].  The only step that can raise is
    [repeat]. *)
Definition codeFormat (expanded : ra.ExpandedMacro) : option string :=
  let result := "// Recursive expansion of " +:+ ra.name expanded +:+ "! macro" +:+ JS.nl in
  rule ← JS.repeat "=" (JS.length result - 3);
  let result := result +:+ ("// " +:+ rule) in
  let result := result +:+ (JS.nl +:+ JS.nl) in
  let result := result +:+ ra.expansion expanded in
  Some result.

(** ** The commands

    The commands of [commands.ts] that do more than forward one request:
    [analyzerStatus], [ssr], [run], [runSingle] and [expandMacro].  Their
    effects are calls on the language client, on coc.nvim's [workspace]
    and on neovim; a program is a tree of such calls, as above, that can
    also end in a thrown error. *)

Module Cmd.

Record TextDocument := { uri : string; languageId : string }.

(** What [workspace.getCurrentState()] resolves to. *)
Record CurrentState := { document : TextDocument; position : Position }.

Record TerminalOptions := {
  name : string;
  cwd : option string;
  env : list (string * string)
}.

Definition Terminal : Type := nat.
Definition Buffer : Type := nat.

Inductive op :=
| sendRequest (r : ra.request)
| getCurrentState
| echoLines (lines : list string)
| showMessage (msg : string)
| callAsync (method : string) (args : list string)
| nvimCommand (command : string) (isNotify : bool)
| nvimBuffer
| setLines (buf : Buffer) (lines : list string) (first last : Z)
| applyEdit (edit : WorkspaceEdit)
| showQuickpick (items : list string)
| createTerminal (opts : TerminalOptions)
| sendText (terminal : Terminal) (text : string).

Definition reply (o : op) : Type :=
  match o with
  | sendRequest r => ra.response r
  | getCurrentState => CurrentState
  | callAsync _ _ => string
  | nvimBuffer => Buffer
  | applyEdit _ => bool
  | showQuickpick _ => Z
  | createTerminal _ => Terminal
  | echoLines _ | showMessage _ | nvimCommand _ _ | setLines _ _ _ _ | sendText _ _ => unit
  end.

Inductive t (R : Type) : Type :=
| Ret (r : R)
| Throw (error : string)
| Do (o : op) (k : reply o -> t R).

Arguments Ret {R} r.
Arguments Throw {R} error.
Arguments Do {R} o k.

Fixpoint bind {A B : Type} (f : A -> t B) (p : t A) : t B :=
  match p with
  | Ret a => f a
  | Throw e => Throw e
  | Do o k => Do o (fun x => bind f (k x))
  end.

#[global] Instance cmd_ret : MRet t := @Ret.
#[global] Instance cmd_bind : MBind t := @bind.

Definition perform (o : op) : t (reply o) := Do o Ret.

(** [xs[i]] for a number [i]: [None] is [undefined]. *)
Definition at_index {A : Type} (xs : list A) (i : Z) : option A :=
  if i <? 0 then None else xs !! Z.to_nat i.

(** The class [RunnableQuickPick]. *)
Record RunnableQuickPick := { label : string; runnable : ra.Runnable }.

Definition newRunnableQuickPick (r : ra.Runnable) : RunnableQuickPick :=
  {| label := ra.label r; runnable := r |}.

Section Commands.

(** [isRustDocument] of [ctx.ts], which is not among these sources. *)
Variable isRustDocument : TextDocument -> bool.

(** [analyzerStatus] *)
Definition analyzerStatus : t unit :=
  ret ← perform (sendRequest ra.analyzerStatus);
  perform (echoLines (JS.split JS.LF ret)).

(** [ssr]: an empty input is falsy. *)
Definition ssr : t unit :=
  input ← perform (callAsync "input"
             ["Enter request like this: foo($a:expr, $b:expr) ==>> bar($a, foo($b)): "]);
  perform (nvimCommand "normal! :<C-u>" true);;
  if String.eqb input "" then Ret tt
  else if negb (JS.includes input "==>>") then Ret tt
  else
    let param := {| ra.query := input; ra.parseOnly := false |} in
    edit ← perform (sendRequest (ra.ssr param));
    perform (applyEdit edit);;
    Ret tt.

(** [run]: [items[idx]] is [undefined] for an index out of range, and
    reading its [runnable] then raises a [TypeError]. *)
Definition run : t unit :=
  st ← perform getCurrentState;
  if negb (isRustDocument (document st)) then Ret tt
  else
    perform (showMessage "Fetching runnable...");;
    let params :=
      {| ra.RunnablesParams.textDocument := identifier (uri (document st));
         ra.RunnablesParams.position := Some (position st) |} in
    runnables ← perform (sendRequest (ra.runnables params));
    let items := newRunnableQuickPick <$> runnables in
    idx ← perform (showQuickpick (label <$> items));
    if idx =? -1 then Ret tt
    else
      match at_index items idx with
      | None => Throw "TypeError"
      | Some item =>
          let runnable := runnable item in
          let cmd := ra.bin runnable +:+ " " +:+ JS.join " " (ra.args runnable) in
          let opt :=
            {| name := ra.label runnable; cwd := ra.cwd runnable; env := ra.env runnable |} in
          terminal ← perform (createTerminal opt);
          perform (sendText terminal cmd)
      end.

(** [runSingle]: the runnable may be missing. *)
Definition runSingle (runnable : option ra.Runnable) : t unit :=
  st ← perform getCurrentState;
  match runnable with
  | None => Ret tt
  | Some runnable =>
      if negb (isRustDocument (document st)) then Ret tt
      else
        let cmd := ra.bin runnable +:+ " " +:+ JS.join " " (ra.args runnable) in
        let opt :=
          {| name := ra.label runnable; cwd := ra.cwd runnable; env := ra.env runnable |} in
        terminal ← perform (createTerminal opt);
        perform (sendText terminal cmd)
  end.

(** [expandMacro]: the buffer of the new tab is asked for before the
    text is formatted. *)
Definition expandMacro : t unit :=
  st ← perform getCurrentState;
  if negb (isRustDocument (document st)) then Ret tt
  else
    let param :=
      {| ra.ExpandMacroParams.textDocument := identifier (uri (document st));
         ra.ExpandMacroParams.position := position st |} in
    expanded ← perform (sendRequest (ra.expandMacro param));
    match expanded with
    | None => Ret tt
    | Some expanded =>
        perform (nvimCommand "tabnew" false);;
        buf ← perform nvimBuffer;
        match codeFormat expanded with
        | None => Throw "RangeError"
        | Some text => perform (setLines buf (JS.split JS.LF text) 0 (-1))
        end
    end.

End Commands.

(** The host of the commands answers each call and moves on. *)
Class Host (W : Type) := react : forall o : op, W -> reply o * W.

(** How a run ends: with [Some] value or, when an error was thrown,
    with [None]; the host it leaves and the calls it made, in order. *)
Record Trace (R W : Type) := {
  value : option R;
  host : W;
  ops : list op
}.

Arguments value {R W} _.
Arguments host {R W} _.
Arguments ops {R W} _.

Fixpoint exec {W : Type} `{Host W} {R : Type} (p : t R) (w : W) : Trace R W :=
  match p with
  | Ret r => {| value := Some r; host := w; ops := [] |}
  | Throw _ => {| value := None; host := w; ops := [] |}
  | Do o k =>
      let '(a, w') := react o w in
      let tr := exec (k a) w' in
      {| value := value tr; host := host tr; ops := o :: ops tr |}
  end.

End Cmd.

(** A host that answers from a fixed script: the state of the editor,
    the answers of the server and what the user types and picks. *)
Module Script.

Record t := {
  state : Cmd.CurrentState;
  status : string;
  macro : option ra.ExpandedMacro;
  offered : list ra.Runnable;
  rewrite : WorkspaceEdit;
  typed : string;
  picked : Z
}.

#[global] Instance host : Cmd.Host t := fun o =>
  match o as o return t -> Cmd.reply o * t with
  | Cmd.sendRequest r =>
      match r as r return t -> ra.response r * t with
      | ra.analyzerStatus => fun w => (status w, w)
      | ra.expandMacro _ => fun w => (macro w, w)
      | ra.runnables _ => fun w => (offered w, w)
      | ra.ssr _ => fun w => (rewrite w, w)
      end
  | Cmd.getCurrentState => fun w => (state w, w)
  | Cmd.callAsync _ _ => fun w => (typed w, w)
  | Cmd.nvimBuffer => fun w => (1%nat, w)
  | Cmd.applyEdit _ => fun w => (true, w)
  | Cmd.showQuickpick _ => fun w => (picked w, w)
  | Cmd.createTerminal _ => fun w => (1%nat, w)
  | Cmd.echoLines _ | Cmd.showMessage _ | Cmd.nvimCommand _ _
  | Cmd.setLines _ _ _ _ | Cmd.sendText _ _ => fun w => (tt, w)
  end.

Definition rust (doc : Cmd.TextDocument) : bool :=
  String.eqb (Cmd.languageId doc) "rust".

Definition test : ra.Runnable :=
  {| ra.range := Range_create 3 0 5 1;
     ra.label := "test f";
     ra.bin := "cargo";
     ra.args := ["test"; "--"; "f"];
     ra.extraArgs := ["--nocapture"];
     ra.env := [("RUST_BACKTRACE", "short")];
     ra.cwd := Some "/ws" |}.

Definition session : t :=
  {| state := {| Cmd.document := {| Cmd.uri := "file:///src/lib.rs"; Cmd.languageId := "rust" |};
                 Cmd.position := {| line := 3; character := 4 |} |};
     status := "workspaces: 1" +:+ JS.nl +:+ "crates: 12";
     macro := Some {| ra.name := "vec"; ra.expansion := "{" +:+ JS.nl +:+ "}" |};
     offered := [{| ra.range := Range_create 0 0 0 0; ra.label := "run main";
                    ra.bin := "cargo"; ra.args := ["run"]; ra.extraArgs := [];
                    ra.env := []; ra.cwd := None |};
                 test];
     rewrite := {| changes := None; documentChanges := None |};
     typed := "foo($a) ==>> bar($a)";
     picked := 1 |}.

End Script.

(** The text edits a call hands to the store. *)
Definition textEditsOf (c : call) : list TextEdit :=
  match c with
  | applyEdit e =>
      flat_map (fun dc => match dc with
                          | TextDocumentEdit_ change => edits change
                          | _ => []
                          end)
        (default [] (documentChanges e))
      ++ flat_map snd (default [] (changes e))
  | _ => []
  end.

(** The characters of marker syntax around a default text: two for the
    bare marker, five for a marker with a default text. *)
Definition syntaxLength (d : option string) : Z :=
  match d with
  | None => 2
  | Some _ => 5
  end.

(** ** Sample documents and edits *)

Module Sample.

Definition lib : string := "file:///src/lib.rs".
Definition main : string := "file:///src/main.rs".

Definition nl : string := String JS.LF "".

(** The text whose lines are [ls]. *)
Definition text (ls : list string) : string :=
  foldr (fun l acc => l +:+ nl +:+ acc) "" ls.

(** The insertion of [text] at line [l], column [c]. *)
Definition insert (l c : Z) (text : string) : TextEdit :=
  {| range := Range_create l c l c; newText := text |}.

Definition group (target : string) (es : list TextEdit) : TextDocumentEdit :=
  {| textDocument := {| uri := target; version := None |}; edits := es |}.

(** A source file of nine lines. *)
Definition source : string :=
  text ["mod a;"; "mod b;"; ""; "fn f() {"; "    g();"; "}"; ""; "fn main() {"; "}"].

(** Two documents are loaded and [main] is the active one. *)
Definition twoDocuments : Editor.t :=
  {| Editor.buffers := {[ lib := "fn f() {}"; main := "fn main() {}" ]};
     Editor.active := main;
     Editor.selection := None |}.

End Sample.

(** * Properties *)

Local Close Scope string_scope.

(** ** Strings *)

Section StringFacts.

Implicit Types s t p : string.

Lemma append_cons c s t : String c s +:+ t = String c (s +:+ t).
Proof. reflexivity. Qed.

Lemma append_nil_l s : "" +:+ s = s.
Proof. reflexivity. Qed.

Lemma append_nil_r s : s +:+ "" = s.
Proof. induction s as [|c s IH]; simpl; [reflexivity | by f_equal]. Qed.

Lemma append_assoc s t p : (s +:+ t) +:+ p = s +:+ (t +:+ p).
Proof. induction s as [|c s IH]; simpl; [reflexivity | by f_equal]. Qed.

Lemma length_append s t :
  String.length (s +:+ t) = (String.length s + String.length t)%nat.
Proof. induction s as [|c s IH]; simpl; [reflexivity | by f_equal]. Qed.

Lemma take_append s t : JS.take (String.length s) (s +:+ t) = s.
Proof. induction s as [|c s IH]; simpl; [by destruct t | by f_equal]. Qed.

Lemma drop_append s t : JS.drop (String.length s) (s +:+ t) = t.
Proof. induction s as [|c s IH]; simpl; [by destruct t | done]. Qed.

Lemma take_drop n s : JS.take n s +:+ JS.drop n s = s.
Proof.
  revert s; induction n as [|n IH]; intros [|c s]; simpl; try reflexivity.
  f_equal. apply IH.
Qed.

Lemma length_take n s :
  (n <= String.length s)%nat -> String.length (JS.take n s) = n.
Proof.
  revert s; induction n as [|n IH]; intros [|c s]; simpl; intros Hn;
    try reflexivity; try lia.
  rewrite IH; lia.
Qed.

Lemma drop_drop n k s : JS.drop n (JS.drop k s) = JS.drop (k + n) s.
Proof.
  revert s; induction k as [|k IH]; intros s; simpl; [reflexivity|].
  destruct s as [|c s]; simpl; [by destruct n | apply IH].
Qed.

Lemma startsWith_append p s : JS.startsWith p (p +:+ s) = true.
Proof.
  induction p as [|c p IH]; simpl; [by destruct s|].
  by rewrite Ascii.eqb_refl, IH.
Qed.

Lemma startsWith_split p s :
  JS.startsWith p s = true -> s = p +:+ JS.drop (String.length p) s.
Proof.
  revert s; induction p as [|c p IH]; intros s; simpl.
  - by destruct s.
  - destruct s as [|a s]; [discriminate|].
    intros [Hc Hp]%andb_prop. apply Ascii.eqb_eq in Hc as ->.
    simpl. f_equal. by apply IH.
Qed.

(** [substr(0, n)] keeps the first [n] characters. *)
Lemma substr_prefix s (n : nat) :
  (n <= String.length s)%nat -> JS.substr s 0 (Z.of_nat n) = JS.take n s.
Proof.
  intros Hn. unfold JS.substr, JS.length. cbv zeta.
  replace (0 <? 0) with false by reflexivity.
  replace (Z.min 0 (Z.of_nat (String.length s))) with 0 by lia.
  replace (Z.min _ _) with (Z.of_nat n) by lia.
  by rewrite Nat2Z.id.
Qed.

End StringFacts.

(** ** The marker pattern *)

Section MarkerFacts.

Implicit Types s d : string.

Lemma untilBrace_split s d :
  Marker.untilBrace s = Some d ->
  s = d +:+ String "}" (JS.drop (S (String.length d)) s) /\ JS.has "}" d = false.
Proof.
  revert d; induction s as [|c s IH]; intros d; simpl; [discriminate|].
  destruct (Ascii.eqb c "}") eqn:Hc.
  - intros [= <-]. apply Ascii.eqb_eq in Hc as ->. by destruct s.
  - destruct (Marker.untilBrace s) as [d'|]; [|discriminate].
    intros [= <-]. destruct (IH d' eq_refl) as [Hs Hd].
    simpl. rewrite Hc. split; [by f_equal | exact Hd].
Qed.

Lemma untilBrace_append d s :
  JS.has "}" d = false -> Marker.untilBrace (d +:+ String "}" s) = Some d.
Proof.
  induction d as [|c d IH]; simpl; [reflexivity|].
  intros [Hc Hd]%orb_false_elim. rewrite Hc, (IH Hd). reflexivity.
Qed.

Lemma matchHere_Some s m0 m2 :
  Marker.matchHere s = Some (m0, m2) ->
  m0 = Marker.text m2 /\ JS.startsWith m0 s = true /\ wellFormed m2.
Proof.
  unfold Marker.matchHere.
  destruct (JS.startsWith "$0" s) eqn:H0.
  { intros [= <- <-]. repeat split; [done | by intros ? [=]]. }
  destruct (JS.startsWith "${0:" s) eqn:H1; [|discriminate].
  destruct (Marker.untilBrace (JS.drop 4 s)) as [d|] eqn:Hd; [|discriminate].
  intros [= <- <-]. apply untilBrace_split in Hd as [Hd Hb].
  apply startsWith_split in H1. change (String.length "${0:") with 4%nat in H1.
  split; [reflexivity|]. split.
  - rewrite H1, Hd. set (r := JS.drop _ _).
    replace (d +:+ String "}" r) with ((d +:+ "}") +:+ r)
      by (rewrite append_assoc; reflexivity).
    apply (startsWith_append ("${0:" +:+ (d +:+ "}")) r).
  - by intros ? [= <-].
Qed.

Lemma matchHere_startsWith s m2 :
  wellFormed m2 -> JS.startsWith (Marker.text m2) s = true ->
  Marker.matchHere s = Some (Marker.text m2, m2).
Proof.
  intros Hwf Hs. unfold Marker.matchHere. destruct m2 as [d|].
  - apply startsWith_split in Hs.
    remember (JS.drop _ s) as r eqn:Hr. clear Hr.
    assert (s = "${0:" +:+ (d +:+ String "}" r)) as ->.
    { etrans; [exact Hs|]. unfold Marker.text. by rewrite !append_assoc. }
    simpl. rewrite untilBrace_append by (by apply Hwf). reflexivity.
  - change (Marker.text None) with "$0" in Hs. by rewrite Hs.
Qed.

Lemma exec_Some s m :
  Marker.exec s = Some m ->
  Marker.matchHere (JS.drop (index m) s) = Some (m_0 m, m_2 m)
  /\ (forall i, (i < index m)%nat -> Marker.matchHere (JS.drop i s) = None).
Proof.
  revert m; induction s as [|c s IH]; intros m.
  - simpl. discriminate.
  - cbn [Marker.exec]. destruct (Marker.matchHere (String c s)) as [[m0 m2]|] eqn:Hm.
    + intros [= <-]. simpl. split; [exact Hm | intros; lia].
    + destruct (Marker.exec s) as [m'|]; [|discriminate].
      intros [= <-]. simpl. destruct (IH m' eq_refl) as [IH1 IH2].
      split; [exact IH1|]. intros [|i] Hi; [exact Hm|]. apply IH2. lia.
Qed.

Lemma exec_None s :
  Marker.exec s = None -> forall i, Marker.matchHere (JS.drop i s) = None.
Proof.
  induction s as [|c s IH]; intros Hs i.
  - by destruct i.
  - cbn [Marker.exec] in Hs.
    destruct (Marker.matchHere (String c s)) as [[m0 m2]|] eqn:Hm; [discriminate|].
    destruct i as [|i]; [exact Hm|]. simpl. apply IH.
    by destruct (Marker.exec s).
Qed.

(** The match that is found is the leftmost one. *)
Lemma exec_leftmost s n m0 m2 :
  (forall i, (i < n)%nat -> Marker.matchHere (JS.drop i s) = None) ->
  Marker.matchHere (JS.drop n s) = Some (m0, m2) ->
  Marker.exec s = Some {| index := n; m_0 := m0; m_2 := m2 |}.
Proof.
  revert s; induction n as [|n IH]; intros s Hno Hm.
  - destruct s; simpl in Hm; [discriminate|]. cbn [Marker.exec]. by rewrite Hm.
  - destruct s as [|c s]; [discriminate|]. cbn [Marker.exec].
    pose proof (Hno 0%nat ltac:(lia)) as H0. simpl in H0. rewrite H0. simpl in Hm.
    rewrite (IH s); [reflexivity| |exact Hm].
    intros i Hi. apply (Hno (S i)). lia.
Qed.

(** A text that holds a marker somewhere is matched. *)
Lemma exec_complete s i :
  Marker.matchHere (JS.drop i s) <> None -> Marker.exec s <> None.
Proof. intros Hm Hs. by apply Hm, exec_None. Qed.

(** [m[0]] first occurs in the text where the match was found, so
    [replace] rewrites the match itself. *)
Lemma exec_indexOf s m :
  Marker.exec s = Some m -> JS.indexOf s (m_0 m) = Some (index m).
Proof.
  revert m; induction s as [|c s IH]; intros m.
  - simpl. discriminate.
  - cbn [Marker.exec]. destruct (Marker.matchHere (String c s)) as [[m0 m2]|] eqn:Hm.
    + intros [= <-]. apply matchHere_Some in Hm as (_ & Hs & _).
      cbn [JS.indexOf m_0 index]. by rewrite Hs.
    + destruct (Marker.exec s) as [m'|] eqn:He; [|discriminate].
      intros [= <-]. cbn [JS.indexOf m_0 index].
      destruct (JS.startsWith (m_0 m') (String c s)) eqn:Hs.
      * destruct (exec_Some _ _ He) as [Hh _].
        apply matchHere_Some in Hh as (H0 & _ & Hwf). rewrite H0 in Hs.
        by rewrite (matchHere_startsWith _ _ Hwf Hs) in Hm.
      * by rewrite (IH m' eq_refl).
Qed.

Lemma indexOf_Some s p i :
  JS.indexOf s p = Some i -> JS.startsWith p (JS.drop i s) = true.
Proof.
  revert i; induction s as [|c s IH]; intros i; cbn [JS.indexOf].
  - destruct (JS.startsWith p "") eqn:Hp; [|discriminate]. by intros [= <-].
  - destruct (JS.startsWith p (String c s)) eqn:Hp; [by intros [= <-]|].
    destruct (JS.indexOf s p) as [j|]; [|discriminate].
    intros [= <-]. simpl. by apply IH.
Qed.

End MarkerFacts.

(** ** The parser *)

Section ParserFacts.

Implicit Types s snip d : string.

Lemma drop_all n s : (String.length s <= n)%nat -> JS.drop n s = "".
Proof.
  revert s; induction n as [|n IH]; intros [|c s]; simpl; intros Hn;
    try reflexivity; try lia.
  apply IH. lia.
Qed.

Lemma startsWith_drop_lt p s i :
  p <> "" -> JS.startsWith p (JS.drop i s) = true -> (i < String.length s)%nat.
Proof.
  intros Hp Hs. destruct (decide (i < String.length s)%nat) as [|Hi]; [done|].
  rewrite drop_all in Hs by lia. by destruct p.
Qed.

Lemma text_nonempty (d : option string) : Marker.text d <> "".
Proof. by destruct d. Qed.

(** A template without a dollar pattern stands for itself. *)
Lemma GetSubstitution_plain matched before after d :
  JS.hasPattern d = false -> JS.GetSubstitution matched before after d = d.
Proof.
  induction d as [|c d IH]; [reflexivity|].
  cbn [JS.hasPattern JS.GetSubstitution].
  intros [Hc Hd]%orb_false_elim.
  destruct (Ascii.eqb c "$"); [|by rewrite IH].
  destruct d as [|a d]; [reflexivity|]. simpl in Hc.
  apply orb_false_elim in Hc as [Hc H4]. apply orb_false_elim in Hc as [Hc H3].
  apply orb_false_elim in Hc as [H1 H2]. rewrite H1, H2, H3, H4.
  by rewrite IH.
Qed.

(** What [parseSnippet] returns when the pattern matches: the text
    around the match is kept, the match is replaced by the expansion of
    the default text as a replacement template. *)
Lemma parseSnippet_exec snip m :
  Marker.exec snip = Some m ->
  let pre := JS.take (index m) snip in
  let post := JS.drop (index m + String.length (m_0 m)) snip in
  let d := default "" (m_2 m) in
  snip = pre +:+ m_0 m +:+ post
  /\ m_0 m = Marker.text (m_2 m)
  /\ wellFormed (m_2 m)
  /\ String.length pre = index m
  /\ parseSnippet snip
     = Some (pre +:+ JS.GetSubstitution (m_0 m) pre post d +:+ post,
             (Z.of_nat (index m), JS.length d)).
Proof.
  intros He. cbv zeta.
  destruct (exec_Some _ _ He) as [Hh _].
  apply matchHere_Some in Hh as (Hm0 & Hs & Hwf).
  assert (index m < String.length snip)%nat as Hlt.
  { eapply startsWith_drop_lt; [|exact Hs]. rewrite Hm0. apply text_nonempty. }
  split; [|split; [exact Hm0|split; [exact Hwf|split]]].
  - apply startsWith_split in Hs. rewrite drop_drop in Hs.
    rewrite <- Hs. symmetry. apply take_drop.
  - apply length_take. lia.
  - unfold parseSnippet. rewrite He. unfold JS.replace.
    by rewrite (exec_indexOf _ _ He).
Qed.

(** A default text without a dollar pattern takes the place of the
    marker as it is. *)
Lemma parseSnippet_plain snip m :
  Marker.exec snip = Some m ->
  JS.hasPattern (default "" (m_2 m)) = false ->
  parseSnippet snip
  = Some (JS.take (index m) snip
          +:+ default "" (m_2 m)
          +:+ JS.drop (index m + String.length (m_0 m)) snip,
          (Z.of_nat (index m), JS.length (default "" (m_2 m)))).
Proof.
  intros He Hd. destruct (parseSnippet_exec _ _ He) as (_ & _ & _ & _ & ->).
  by rewrite GetSubstitution_plain.
Qed.

(** The same, from the text: when the leftmost marker of a text has a
    default text without a dollar pattern, [parseSnippet] puts the
    default text in its place and returns where it starts and how long
    it is. *)
Lemma parseSnippet_marker (pre post : string) (d : option string) :
  wellFormed d ->
  (forall i, (i < String.length pre)%nat ->
     Marker.matchHere (JS.drop i (pre +:+ Marker.text d +:+ post)) = None) ->
  JS.hasPattern (default "" d) = false ->
  parseSnippet (pre +:+ Marker.text d +:+ post)
  = Some (pre +:+ default "" d +:+ post, (JS.length pre, JS.length (default "" d))).
Proof.
  intros Hwf Hno Hd.
  assert (Marker.exec (pre +:+ Marker.text d +:+ post)
          = Some {| index := String.length pre; m_0 := Marker.text d; m_2 := d |}) as He.
  { apply exec_leftmost; [exact Hno|]. rewrite drop_append.
    apply matchHere_startsWith; [exact Hwf | apply startsWith_append]. }
  rewrite (parseSnippet_plain _ _ He) by exact Hd. cbn [index m_0 m_2].
  rewrite take_append, <- drop_drop, !drop_append. reflexivity.
Qed.

(** No marker, no result. *)
Lemma parseSnippet_None snip :
  parseSnippet snip = None <-> Marker.exec snip = None.
Proof.
  unfold parseSnippet. by destruct (Marker.exec snip).
Qed.

(** The text [parseSnippet] returns begins with the text before the
    marker, which is what [applySnippetWorkspaceEdit] calls [prefix]. *)
Lemma parsed_prefix snip m newText off len :
  Marker.exec snip = Some m ->
  parseSnippet snip = Some (newText, (off, len)) ->
  off = Z.of_nat (index m)
  /\ len = JS.length (default "" (m_2 m))
  /\ JS.substr newText 0 off = JS.take (index m) snip.
Proof.
  intros He Hp.
  destruct (parseSnippet_exec _ _ He) as (_ & _ & _ & Hlen & Hp').
  rewrite Hp in Hp'. injection Hp' as -> -> ->.
  split; [reflexivity|]. split; [reflexivity|].
  rewrite substr_prefix by (rewrite length_append; lia).
  rewrite <- Hlen at 1. apply take_append.
Qed.

End ParserFacts.

(** ** Lines and columns *)

Section LineFacts.

Implicit Types s : string.

Lemma lastIndexOf_absent s c : JS.has c s = false -> JS.lastIndexOf s c = -1.
Proof.
  induction s as [|a s IH]; simpl; [reflexivity|].
  intros [Ha Hs]%orb_false_elim. rewrite (IH Hs), Ha. reflexivity.
Qed.

Lemma lastIndexOf_present s c :
  JS.has c s = true -> 0 <= JS.lastIndexOf s c < JS.length s.
Proof.
  unfold JS.length. induction s as [|a s IH]; simpl String.length; [discriminate|].
  cbn [JS.has JS.lastIndexOf]. destruct (JS.has c s) eqn:Hs.
  - intros _. specialize (IH eq_refl).
    destruct (0 <=? JS.lastIndexOf s c) eqn:Hr; lia.
  - rewrite orb_false_r. intros ->. rewrite (lastIndexOf_absent _ _ Hs).
    simpl. lia.
Qed.

Lemma countLines_nonneg s : 0 <= countLines s.
Proof. induction s as [|a s IH]; simpl; [lia|]. destruct (Ascii.eqb a JS.LF); lia. Qed.

Lemma countLines_zero s : countLines s = 0 <-> JS.has JS.LF s = false.
Proof.
  induction s as [|a s IH]; simpl; [done|].
  pose proof (countLines_nonneg s).
  destruct (Ascii.eqb a JS.LF); simpl; [split; [lia|discriminate]|].
  rewrite <- IH. lia.
Qed.

(** The column the code computes for a marker on a later line is the
    number of characters between the last line break and the marker. *)
Lemma column_after_break s :
  JS.has JS.LF s = true ->
  JS.length s - JS.lastIndexOf s JS.LF - 1 = JS.length (JS.lastLine s).
Proof.
  unfold JS.length. induction s as [|a s IH]; [discriminate|].
  cbn [JS.has JS.lastIndexOf JS.lastLine]. destruct (JS.has JS.LF s) eqn:Hs.
  - intros _. specialize (IH eq_refl).
    pose proof (lastIndexOf_present _ _ Hs) as Hr.
    destruct (0 <=? JS.lastIndexOf s JS.LF) eqn:E; [|lia].
    simpl String.length. lia.
  - rewrite orb_false_r. intros ->. rewrite (lastIndexOf_absent _ _ Hs).
    simpl. lia.
Qed.

End LineFacts.

(** ** Runs of the loop *)

Section Run.

Context {W : Type} `{DocumentStore W}.

Lemma run_bind {A B : Type} (p : Async A) (f : A -> Async B) (w : W) :
  run (p ≫= f) w
  = let o := run p w in
    let o' := run (f (result o)) (store o) in
    {| result := result o'; store := store o'; calls := calls o ++ calls o' |}.
Proof.
  revert w; induction p as [a|c k IH]; intros w.
  - simpl. by destruct (run (f a) w).
  - change (Await c k ≫= f) with (Await c (fun x => k x ≫= f)).
    simpl. destruct (handle c w) as [a w']. by rewrite IH.
Qed.

Lemma run_applyIndel change st indel (w : W) :
  run (applyIndel change st indel) w
  = {| result := nextState st indel;
       store := after (applyEdit (issued change indel)) w;
       calls := [applyEdit (issued change indel)] |}.
Proof.
  unfold applyIndel, nextState, issued, after, lineChange. destruct st as [sel delta].
  destruct (parseSnippet (newText indel)) as [parsed|]; simpl;
    by destruct (handle _ w).
Qed.

(** One application per edit, in the order of the group, each made on
    the store the one before it left. *)
Lemma run_forOf change es st (w : W) :
  run (forOf (applyIndel change) es st) w
  = {| result := fold_left nextState es st;
       store := fold_left (fun w indel => after (applyEdit (issued change indel)) w) es w;
       calls := (fun indel => applyEdit (issued change indel)) <$> es |}.
Proof.
  revert st w; induction es as [|indel es IH]; intros st w; [reflexivity|].
  cbn [forOf]. rewrite run_bind, run_applyIndel. cbv zeta. cbn [result store calls].
  rewrite IH. reflexivity.
Qed.

Lemma run_placeSelection change sel (w : W) :
  run (placeSelection change sel) w
  = match sel with
    | None => {| result := tt; store := w; calls := [] |}
    | Some r =>
        let target := uri (textDocument change) in
        let w1 := after document w in
        if String.eqb (fst (handle document w)) target
        then {| result := tt; store := after (selectRange r) w1;
                calls := [document; selectRange r] |}
        else {| result := tt; store := after (jumpTo target) (after (loadFile target) w1);
                calls := [document; loadFile target; jumpTo target] |}
    end.
Proof.
  destruct sel as [r|]; [|reflexivity]. unfold after. simpl.
  destruct (handle document w) as [current w1]. simpl.
  destruct (String.eqb current _); simpl.
  - by destruct (handle (selectRange r) w1) as [[] ?].
  - destruct (handle (loadFile _) w1) as [[] w2]. simpl.
    by destruct (handle (jumpTo _) w2) as [[] ?].
Qed.

End Run.

Section LoopFacts.

Implicit Types es prior later : list TextEdit.

Lemma nextState_marker st indel parsed :
  parseSnippet (newText indel) = Some parsed ->
  nextState st indel = (Some (snippetSelection indel (snd st) parsed), snd st).
Proof. unfold nextState. by intros ->. Qed.

Lemma nextState_plain st indel :
  hasMarker indel = false -> nextState st indel = (fst st, lineChange indel).
Proof. unfold nextState, hasMarker. by destruct (parseSnippet _). Qed.

Lemma issued_plain change indel :
  hasMarker indel = false -> issued change indel = whole change.
Proof. unfold issued, hasMarker. by destruct (parseSnippet _). Qed.

(** Edits without a marker leave [selection] as it is. *)
Lemma selection_plain es st :
  Forall (fun e => hasMarker e = false) es ->
  fst (fold_left nextState es st) = fst st.
Proof.
  intros Hes; revert st; induction Hes as [|e es He _ IH]; intros st; [reflexivity|].
  simpl. rewrite IH, nextState_plain by done. reflexivity.
Qed.

(** Every edit with a marker overwrites [selection]: the one that
    stays is that of the last such edit. *)
Lemma selection_last prior indel later parsed st :
  parseSnippet (newText indel) = Some parsed ->
  Forall (fun e => hasMarker e = false) later ->
  fst (fold_left nextState (prior ++ indel :: later) st)
  = Some (snippetSelection indel (snd (fold_left nextState prior st)) parsed).
Proof.
  intros Hp Hl. rewrite fold_left_app. simpl.
  rewrite selection_plain by done. by rewrite (nextState_marker _ _ _ Hp).
Qed.

Lemma existsb_hasMarker es :
  existsb hasMarker es = false -> Forall (fun e => hasMarker e = false) es.
Proof.
  induction es as [|e es IH]; simpl; [constructor|].
  intros [He Hes]%orb_false_elim. constructor; auto.
Qed.

Lemma selection_some es st :
  existsb hasMarker es = true -> is_Some (fst (fold_left nextState es st)).
Proof.
  revert st; induction es as [|e es IH]; intros st; simpl; [discriminate|].
  destruct (existsb hasMarker es) eqn:Hes.
  - intros _. by apply IH.
  - rewrite orb_false_r. intros He. apply existsb_hasMarker in Hes.
    rewrite selection_plain by done. unfold hasMarker in He. unfold nextState.
    destruct (parseSnippet (newText e)); [by eexists | discriminate].
Qed.

(** [lineDelta] is assigned, not added to: it is the line change of
    the last edit without a marker, whatever went before. *)
Lemma lineDelta_snoc prior indel st :
  snd (fold_left nextState (prior ++ [indel]) st)
  = if hasMarker indel then snd (fold_left nextState prior st) else lineChange indel.
Proof.
  rewrite fold_left_app. simpl. unfold nextState, hasMarker.
  by destruct (parseSnippet (newText indel)).
Qed.

(** So what the loop has in [lineDelta] is the line change of the last
    edit without a marker that it went through, and 0 when there was
    none. *)
Lemma lineDeltaAfter_last prior :
  lineDeltaAfter prior
  = from_option lineChange 0 (last (filter (fun e => hasMarker e = false) prior)).
Proof.
  unfold lineDeltaAfter. induction prior as [|e prior IH] using rev_ind; [reflexivity|].
  rewrite lineDelta_snoc, filter_app.
  destruct (hasMarker e) eqn:He.
  - rewrite filter_cons_False by congruence. rewrite filter_nil, app_nil_r. exact IH.
  - rewrite filter_cons_True by done. rewrite filter_nil, last_snoc. reflexivity.
Qed.

End LoopFacts.

(** ** The command *)

Section Command.

Context {W : Type} `{DocumentStore W}.

Lemma run_command edit change rest (w : W) :
  documentChanges edit = Some (TextDocumentEdit_ change :: rest) ->
  run (applySnippetWorkspaceEdit edit) w
  = let group := run (applyGroup change) w in
    let tail := run (placeSelection change (fst (result group))) (store group) in
    {| result := tt; store := store tail; calls := calls group ++ calls tail |}.
Proof.
  intros Hc. unfold applySnippetWorkspaceEdit. rewrite Hc, run_bind. cbv zeta.
  by destruct (result (run (placeSelection _ _) _)).
Qed.

Lemma run_applyGroup change (w : W) :
  run (applyGroup change) w
  = {| result := fold_left nextState (edits change) (None, 0);
       store := fold_left (fun w indel => after (applyEdit (issued change indel)) w)
                  (edits change) w;
       calls := (fun indel => applyEdit (issued change indel)) <$> edits change |}.
Proof. apply run_forOf. Qed.

End Command.

(** ** What the command does to a group, in general *)

(** A group none of whose edits has a marker: no selection is computed
    and no call follows the applications, but each turn of the loop
    passes the whole group to [workspace.applyEdit], so the group is
    applied as many times as it has edits. *)
Lemma plain_group_applied_per_edit {W : Type} `{DocumentStore W}
    (edit : WorkspaceEdit) (change : TextDocumentEdit) (rest : list DocumentChange)
    (w : W) :
  documentChanges edit = Some (TextDocumentEdit_ change :: rest) ->
  existsb hasMarker (edits change) = false ->
  let n := List.length (edits change) in
  fst (result (run (applyGroup change) w)) = None
  /\ calls (run (applySnippetWorkspaceEdit edit) w) = replicate n (applyEdit (whole change))
  /\ store (run (applySnippetWorkspaceEdit edit) w)
     = Nat.iter n (after (applyEdit (whole change))) w.
Proof.
  intros Hc Hm n. apply existsb_hasMarker in Hm.
  rewrite (run_command _ _ _ _ Hc). cbv zeta. rewrite run_applyGroup.
  cbn [result store calls]. rewrite selection_plain by done. simpl.
  rewrite app_nil_r. subst n. split; [reflexivity|].
  revert w. induction Hm as [|e es He _ IH]; intros w; [by split|].
  destruct (IH (after (applyEdit (whole change)) w)) as [IH1 IH2].
  cbn [fmap list_fmap fold_left List.length replicate].
  rewrite (issued_plain _ _ He). split; [by rewrite <- IH1|].
  rewrite IH2. symmetry. apply Nat.iter_succ_r.
Qed.

(** With one edit without a marker before the edit with the marker, the
    line of the selection is the start line of that edit, plus the line
    breaks of the text before the marker, plus the line change of the
    first edit, which is then the whole drift. *)
Lemma line_drift_of_one_edit (first indel : TextEdit) (parsed : string * (Z * Z)) :
  hasMarker first = false ->
  parseSnippet (newText indel) = Some parsed ->
  fst (fold_left nextState [first; indel] (None, 0))
  = Some (snippetSelection indel (accumulatedDrift [first]) parsed)
  /\ line (start (snippetSelection indel (accumulatedDrift [first]) parsed))
     = line (start (range indel))
       + countLines (JS.substr (fst parsed) 0 (fst (snd parsed)))
       + lineChange first.
Proof.
  intros Hf Hp. simpl. rewrite (nextState_plain _ _ Hf), (nextState_marker _ _ _ Hp).
  unfold accumulatedDrift. simpl. rewrite Z.add_0_r. split; [reflexivity|].
  destruct parsed as [text [off len]]. simpl. lia.
Qed.

(** [parseSnippet] returns nothing exactly when the pattern matches at
    no position of the text. *)
Lemma parseSnippet_no_marker (snip : string) :
  parseSnippet snip = None <-> forall i, Marker.matchHere (JS.drop i snip) = None.
Proof.
  rewrite parseSnippet_None. split; [apply exec_None|].
  intros Hno. destruct (Marker.exec snip) as [m|] eqn:He; [|reflexivity].
  destruct (exec_Some _ _ He) as [Hm _]. by rewrite Hno in Hm.
Qed.

(** * The claims *)

(** C1.  The code at a group of two insertions without a marker into the
    document [ab]: no selection is computed or placed, but each of the
    two turns of the loop applies the whole group, so the document ends
    as [xxyayb], whereas applying each edit once, in order, gives
    [xayb]. *)
Theorem plain_group_applied_twice :
  let es := [Sample.insert 0 1 "y"; Sample.insert 0 0 "x"] in
  let change := Sample.group Sample.lib es in
  let o := run (applySnippetWorkspaceEdit (whole change)) (Editor.open Sample.lib "ab") in
  existsb hasMarker es = false
  /\ calls o = [applyEdit (whole change); applyEdit (whole change)]
  /\ Editor.selection (store o) = None
  /\ Editor.buffers (store o) !! Sample.lib = Some "xxyayb"%string
  /\ Editor.applyTextEdits es "ab" = "xayb"%string.
Proof. intros es change o. by vm_compute. Qed.

(** C2, as stated, fails: in a group of two edits with a marker the
    selection that is placed is the one of the second edit; the one
    derived from the first is never placed. *)
Lemma later_marker_overrides_first :
  let first := Sample.insert 0 0 "$0" in
  let second := Sample.insert 5 0 "${0:x}" in
  let change := Sample.group Sample.lib [first; second] in
  let o := run (applySnippetWorkspaceEdit (whole change))
             (Editor.open Sample.lib Sample.source) in
  hasMarker first = true
  /\ hasMarker second = true
  /\ snippetSelection first 0 <$> parseSnippet (newText first) = Some (Range_create 0 0 0 0)
  /\ Editor.selection (store o) = Some (Range_create 5 0 5 1)
  /\ (selectRange (Range_create 0 0 0 0) ∉ calls o).
Proof.
  intros first second change o. vm_compute. repeat split.
  intros Hin. apply list_elem_of_In in Hin. simpl in Hin.
  destruct Hin as [|[|[|[|[]]]]]; discriminate.
Qed.

(** C2, amended.  Every edit with a marker overwrites the recorded
    selection, so the selection the loop ends with, and the one that is
    placed when the edited document is the active one, is that of the
    last edit of the group that has a marker, computed with the value
    [lineDelta] had when the loop reached it.  All the edits of the group
    are applied. *)
Theorem last_marker_gives_selection {W : Type} `{DocumentStore W}
    (edit : WorkspaceEdit) (change : TextDocumentEdit) (rest : list DocumentChange)
    (before later : list TextEdit) (indel : TextEdit) (parsed : string * (Z * Z))
    (w : W) :
  documentChanges edit = Some (TextDocumentEdit_ change :: rest) ->
  edits change = before ++ indel :: later ->
  parseSnippet (newText indel) = Some parsed ->
  Forall (fun e => hasMarker e = false) later ->
  let group := run (applyGroup change) w in
  let sel := snippetSelection indel (lineDeltaAfter before) parsed in
  fst (result group) = Some sel
  /\ calls group = (fun e => applyEdit (issued change e)) <$> edits change
  /\ (fst (handle document (store group)) = uri (textDocument change) ->
      calls (run (applySnippetWorkspaceEdit edit) w)
      = calls group ++ [document; selectRange sel]).
Proof.
  intros Hc He Hp Hl group sel.
  assert (fst (result group) = Some sel) as Hsel.
  { unfold group. rewrite run_applyGroup. cbn [result]. rewrite He.
    by rewrite (selection_last _ _ _ _ _ Hp Hl). }
  split; [exact Hsel|]. split; [unfold group; by rewrite run_applyGroup|].
  intros Hactive. rewrite (run_command _ _ _ _ Hc). cbv zeta. fold group.
  cbn [calls]. rewrite run_placeSelection, Hsel. cbv zeta.
  rewrite Hactive, String.eqb_refl. reflexivity.
Qed.

Lemma last_marker_gives_selection_witness :
  let first := Sample.insert 0 0 "$0" in
  let second := Sample.insert 5 0 "${0:x}" in
  let change := Sample.group Sample.lib [first; second] in
  fst (result (run (applyGroup change) (Editor.open Sample.lib Sample.source)))
  = Some (Range_create 5 0 5 1).
Proof.
  intros first second change.
  exact (proj1 (last_marker_gives_selection (whole change) change [] [first] [] second
                  ("x"%string, (0, 1)) (Editor.open Sample.lib Sample.source)
                  eq_refl eq_refl eq_refl (Forall_nil_2 _))).
Defined.

(** C3.  The code at a group of three edits, two insertions of one line
    each and then an edit with a marker at line 7: [lineDelta] is
    assigned by each edit without a marker, so only the second insertion
    counts and the selection lands on line 8, whereas the drift summed
    over both insertions is 2 and would give line 9. *)
Theorem line_drift_keeps_last_change_only :
  let prior := [Sample.insert 0 0 ("use a;" +:+ Sample.nl);
                Sample.insert 3 0 ("use b;" +:+ Sample.nl)] in
  let marker := Sample.insert 7 2 "${0:todo}" in
  let change := Sample.group Sample.lib (prior ++ [marker]) in
  let o := run (applySnippetWorkspaceEdit (whole change))
             (Editor.open Sample.lib Sample.source) in
  accumulatedDrift prior = 2
  /\ lineDeltaAfter prior = 1
  /\ Editor.selection (store o) = Some (Range_create 8 2 8 6)
  /\ line (start (range marker)) + 0 + accumulatedDrift prior = 9.
Proof. intros prior marker change o. by vm_compute. Qed.

(** C4, as stated, fails: a group without a marker on a document that is
    not the active one is applied, and the command ends there.  The
    active document is never asked for and no switch is made. *)
Lemma no_switch_without_marker :
  let change := Sample.group Sample.lib [Sample.insert 0 0 "// note "] in
  let o := run (applySnippetWorkspaceEdit (whole change)) Sample.twoDocuments in
  Editor.active (store o) <> uri (textDocument change)
  /\ calls o = [applyEdit (whole change)]
  /\ (jumpTo Sample.lib ∉ calls o)
  /\ (loadFile Sample.lib ∉ calls o).
Proof.
  intros change o. vm_compute. repeat split; try discriminate.
  all: intros Hin; apply list_elem_of_In in Hin; simpl in Hin;
    destruct Hin as [Hin | []]; discriminate.
Qed.

(** C4, amended.  When the document of the group is not the active one
    once the edits have been applied, the switch is made exactly when a
    selection was computed, that is when some edit of the group has a
    marker: the command then asks for the active document, loads and
    jumps to the edited one and stops.  Without a marker it makes no call
    after the applications.  In both cases no selection is placed. *)
Theorem switch_only_after_marker {W : Type} `{DocumentStore W}
    (edit : WorkspaceEdit) (change : TextDocumentEdit) (rest : list DocumentChange)
    (w : W) :
  documentChanges edit = Some (TextDocumentEdit_ change :: rest) ->
  let group := run (applyGroup change) w in
  let target := uri (textDocument change) in
  fst (handle document (store group)) <> target ->
  let o := run (applySnippetWorkspaceEdit edit) w in
  (existsb hasMarker (edits change) = true ->
   calls o = calls group ++ [document; loadFile target; jumpTo target])
  /\ (existsb hasMarker (edits change) = false -> calls o = calls group)
  /\ (forall r, selectRange r ∉ calls o).
Proof.
  intros Hc group target Hne o. subst o.
  rewrite (run_command _ _ _ _ Hc). cbv zeta. fold group. cbn [calls].
  rewrite run_placeSelection. fold target.
  assert (String.eqb (fst (handle document (store group))) target = false) as Heqb
    by (by apply String.eqb_neq).
  assert (forall r, selectRange r ∉ calls group) as Hgroup.
  { intros r. unfold group. rewrite run_applyGroup. cbn [calls].
    intros (e & [=] & _)%list_elem_of_fmap. }
  assert (result group = fold_left nextState (edits change) (None, 0)) as Hres
    by (unfold group; by rewrite run_applyGroup).
  repeat split.
  - intros Hm. destruct (selection_some _ (None, 0) Hm) as [r Hr].
    rewrite Hres, Hr. cbv zeta. by rewrite Heqb.
  - intros Hm. rewrite Hres, selection_plain by (by apply existsb_hasMarker).
    simpl. by rewrite app_nil_r.
  - intros r [Hin | Hin]%elem_of_app; [by apply (Hgroup r)|].
    destruct (fst (result group)) as [r'|]; cbv zeta in Hin.
    + rewrite Heqb in Hin. cbn [calls] in Hin.
      apply list_elem_of_In in Hin. simpl in Hin.
      destruct Hin as [|[|[|[]]]]; discriminate.
    + by apply elem_of_nil in Hin.
Qed.

Lemma switch_only_after_marker_witness :
  let change := Sample.group Sample.lib [Sample.insert 0 9 "${0:todo!()}"] in
  let o := run (applySnippetWorkspaceEdit (whole change)) Sample.twoDocuments in
  fst (handle document (store (run (applyGroup change) Sample.twoDocuments)))
  <> uri (textDocument change)
  /\ calls o
     = [applyEdit (isolated (textDocument change) (Range_create 0 9 0 9) "todo!()");
        document; loadFile Sample.lib; jumpTo Sample.lib].
Proof.
  intros change o.
  assert (fst (handle document (store (run (applyGroup change) Sample.twoDocuments)))
          <> uri (textDocument change)) as Hne by (vm_compute; discriminate).
  split; [exact Hne|].
  exact (proj1 (switch_only_after_marker (whole change) change [] Sample.twoDocuments
                  eq_refl Hne) eq_refl).
Defined.

(** C5.  The code at a replacement text whose marker has the default
    text of two dollar signs: [replace] reads the default text as a
    replacement template, in which two dollar signs stand for one.  The
    text returned has one dollar sign where the marker was, not the
    default text, and the length returned, 2, is not the length of what
    was put in. *)
Theorem dollar_pattern_in_default_text :
  let snip := "let ${0:$$} = 1;"%string in
  let m := {| index := 4; m_0 := "${0:$$}"; m_2 := Some "$$"%string |} in
  Marker.exec snip = Some m
  /\ parseSnippet snip = Some ("let $ = 1;"%string, (4, 2))
  /\ JS.take (index m) snip +:+ "$$" +:+ JS.drop (index m + String.length (m_0 m)) snip
     = "let $$ = 1;"%string.
Proof. intros snip m. by vm_compute. Qed.

(** C6.  The column of the selection computed for an edit with a marker
    is the start column of the edit plus the offset of the marker when no
    line break comes before the marker in the replacement text, and the
    number of characters between the last line break and the marker
    otherwise; the selection ends as many columns further as the default
    text is long, on the same line.  In particular [${0:foo}] inserted at
    line 2, column 4 is applied as [foo] and selected from column 4 to
    column 7 of line 2. *)
Theorem selection_columns :
  (forall (indel : TextEdit) (lineDelta : Z) (m : RegExpMatchArray),
     Marker.exec (newText indel) = Some m ->
     let prefix := JS.take (index m) (newText indel) in
     exists parsed,
       parseSnippet (newText indel) = Some parsed
       /\ let sel := snippetSelection indel lineDelta parsed in
          (JS.has JS.LF prefix = false ->
           character (start sel) = character (start (range indel)) + Z.of_nat (index m))
          /\ (JS.has JS.LF prefix = true ->
              character (start sel) = JS.length (JS.lastLine prefix))
          /\ character (end_ sel)
             = character (start sel) + JS.length (default ""%string (m_2 m))
          /\ line (end_ sel) = line (start sel))
  /\ (let change := Sample.group Sample.lib [Sample.insert 2 4 "${0:foo}"] in
      let before := Sample.text ["fn main() {"; "    let x = 1;"; "    "; "}"]%string in
      let o := run (applySnippetWorkspaceEdit (whole change)) (Editor.open Sample.lib before) in
      calls o = [applyEdit (isolated (textDocument change) (Range_create 2 4 2 4) "foo");
                 document; selectRange (Range_create 2 4 2 7)]
      /\ Editor.selection (store o) = Some (Range_create 2 4 2 7)
      /\ Editor.buffers (store o) !! Sample.lib
         = Some (Sample.text ["fn main() {"; "    let x = 1;"; "    foo"; "}"]%string)).
Proof.
  split; [|by vm_compute].
  intros indel lineDelta m He prefix.
  destruct (parseSnippet_exec _ _ He) as (_ & _ & _ & _ & Hp).
  eexists. split; [exact Hp|].
  destruct (parsed_prefix _ _ _ _ _ He Hp) as (_ & _ & Hpre).
  unfold snippetSelection. rewrite Hpre. fold prefix. cbv zeta.
  unfold Range_create. cbn [start end_ line character].
  repeat split.
  - intros Hlf. by rewrite (lastIndexOf_absent _ _ Hlf).
  - intros Hlf. pose proof (lastIndexOf_present _ _ Hlf) as Hr.
    destruct (JS.lastIndexOf prefix JS.LF =? -1) eqn:E; [lia|].
    by apply column_after_break.
Qed.

Lemma selection_columns_witness :
  let indel := Sample.insert 2 4 "${0:foo}" in
  exists parsed,
    parseSnippet (newText indel) = Some parsed
    /\ character (start (snippetSelection indel 0 parsed)) = 4
    /\ character (end_ (snippetSelection indel 0 parsed)) = 4 + 3.
Proof.
  intros indel.
  destruct (proj1 selection_columns indel 0
              {| index := 0; m_0 := "${0:foo}"; m_2 := Some "foo"%string |} eq_refl)
    as (parsed & Hp & Hfirst & _ & Hend & _).
  exists parsed. split; [exact Hp|]. split.
  - exact (Hfirst eq_refl).
  - rewrite Hend, (Hfirst eq_refl). reflexivity.
Defined.

(** C7, as stated, fails: a replacement text can hold the bare marker
    behind a marker with a default text.  The first marker is the one
    that is parsed, so the selection is as wide as its default text and
    the bare marker stays in the text that is applied. *)
Lemma bare_marker_behind_bounded_marker :
  let indel := Sample.insert 0 0 "${0:ab}$0" in
  JS.indexOf (newText indel) "$0" = Some 7%nat
  /\ parseSnippet (newText indel) = Some ("ab$0"%string, (0, 2))
  /\ start (snippetSelection indel 0 ("ab$0"%string, (0, 2)))
     <> end_ (snippetSelection indel 0 ("ab$0"%string, (0, 2))).
Proof. intros indel. by vm_compute. Qed.

(** C7, amended.  When the first marker of the replacement text of an
    edit is the bare marker, the text that is applied for the edit is the
    replacement text without the two characters of that marker, and the
    selection computed for the edit starts and ends at the same
    position. *)
Theorem bare_marker_selection {W : Type} `{DocumentStore W}
    (change : TextDocumentEdit) (st : LoopState) (indel : TextEdit)
    (m : RegExpMatchArray) (w : W) :
  Marker.exec (newText indel) = Some m ->
  m_0 m = "$0"%string ->
  let pre := JS.take (index m) (newText indel) in
  let post := JS.drop (index m + 2) (newText indel) in
  let o := run (applyIndel change st indel) w in
  newText indel = pre +:+ "$0" +:+ post
  /\ calls o = [applyEdit (isolated (textDocument change) (range indel) (pre +:+ post))]
  /\ exists sel, fst (result o) = Some sel /\ start sel = end_ sel.
Proof.
  intros He H0 pre post o.
  destruct (parseSnippet_exec _ _ He) as (Hsplit & Htext & _ & _ & Hp).
  assert (m_2 m = None) as H2.
  { destruct (m_2 m) as [d|]; [|reflexivity]. rewrite H0 in Htext. discriminate. }
  rewrite H0, H2 in *. change (String.length "$0") with 2%nat in *.
  fold pre post in Hsplit, Hp. simpl in Hp.
  split; [exact Hsplit|]. subst o. rewrite run_applyIndel. cbn [calls result].
  unfold issued, nextState. rewrite Hp. cbn [fst snd].
  split; [reflexivity|]. eexists. split; [reflexivity|].
  unfold snippetSelection, Range_create. cbv zeta. cbn [start end_].
  change (JS.length "") with 0. by rewrite Z.add_0_r.
Qed.

Lemma bare_marker_selection_witness :
  let indel := Sample.insert 4 8 "let $0 = 1;" in
  let change := Sample.group Sample.lib [indel] in
  calls (run (applyIndel change (None, 0) indel) (Editor.open Sample.lib Sample.source))
  = [applyEdit (isolated (textDocument change) (range indel) "let  = 1;")].
Proof.
  intros indel change.
  exact (proj1 (proj2 (bare_marker_selection change (None, 0) indel
                         {| index := 4; m_0 := "$0"; m_2 := None |}
                         (Editor.open Sample.lib Sample.source) eq_refl eq_refl))).
Defined.

(** C8.  A workspace edit that is not a grouped text-document edit, that
    is one whose [documentChanges] is absent or empty or begins with a
    change that is not a text-document edit, makes the command return at
    once: no call to the workspace is made, so that on every document
    store the store is left as it was and nothing is placed or raised. *)
Theorem ungrouped_edit_is_noop (edit : WorkspaceEdit) :
  documentChanges edit = None
  \/ documentChanges edit = Some []
  \/ (exists c rest, documentChanges edit = Some (c :: rest)
                     /\ forall change, c <> TextDocumentEdit_ change) ->
  applySnippetWorkspaceEdit edit = Ret tt
  /\ forall (W : Type) (S : DocumentStore W) (w : W),
       run (applySnippetWorkspaceEdit edit) w
       = {| result := tt; store := w; calls := [] |}.
Proof.
  intros Hshape.
  assert (applySnippetWorkspaceEdit edit = Ret tt) as ->; [|by split].
  unfold applySnippetWorkspaceEdit.
  destruct Hshape as [-> | [-> | (c & rest & -> & Hc)]]; try reflexivity.
  destruct c; try reflexivity. by destruct (Hc change).
Qed.

Lemma ungrouped_edit_is_noop_witness :
  let edit :=
    {| changes := Some [(Sample.lib, [Sample.insert 0 0 "${0:x}"])];
       documentChanges :=
         Some [CreateFile Sample.main;
               TextDocumentEdit_ (Sample.group Sample.main [Sample.insert 0 0 "$0"])] |} in
  applySnippetWorkspaceEdit edit = Ret tt
  /\ forall (W : Type) (S : DocumentStore W) (w : W),
       run (applySnippetWorkspaceEdit edit) w
       = {| result := tt; store := w; calls := [] |}.
Proof.
  intros edit. apply (ungrouped_edit_is_noop edit).
  right; right. eexists _, _. split; [reflexivity | discriminate].
Defined.

(** C9.  The code at a group of an edit whose marker has the default
    text of two dollar signs, followed by an insertion without a marker,
    on the document [x].  The edit with the marker gets a call of its
    own, but the text in it has one dollar sign where the default text
    has two, and the turn of the loop for the insertion hands the whole
    group to the store, the edit with the marker among its edits and with
    its marker unparsed: the document ends with the text of the marker
    in it. *)
Theorem marker_edit_reapplied_unparsed :
  let indel := Sample.insert 0 1 "${0:$$}" in
  let plain := Sample.insert 0 0 "a" in
  let change := Sample.group Sample.lib [indel; plain] in
  let o := run (applySnippetWorkspaceEdit (whole change)) (Editor.open Sample.lib "x") in
  Marker.exec (newText indel)
  = Some {| index := 0; m_0 := "${0:$$}"; m_2 := Some "$$"%string |}
  /\ calls o
     = [applyEdit (isolated (textDocument change) (range indel) "$");
        applyEdit (whole change); document; selectRange (Range_create 0 1 0 3)]
  /\ (indel ∈ textEditsOf (applyEdit (whole change)))
  /\ Editor.buffers (store o) !! Sample.lib = Some "ax${0:$$}$"%string.
Proof.
  intros indel plain change o. vm_compute. repeat split.
  apply list_elem_of_In. simpl. auto.
Qed.

(** What does hold of an edit with a marker: the call made for it at its
    turn of the loop holds one text-document edit with that single edit,
    whose text is the one [parseSnippet] returned, which is the
    replacement text with the default text in the place of the marker
    whenever the default text has no dollar pattern.  The calls to
    [workspace.applyEdit] are made one per edit, in the order of the
    group, and each is made on the store that the call before it
    left. *)
Lemma marker_edit_isolated_call {W : Type} `{DocumentStore W}
    (edit : WorkspaceEdit) (change : TextDocumentEdit) (rest : list DocumentChange)
    (before later : list TextEdit) (indel : TextEdit) (parsed : string * (Z * Z))
    (w : W) :
  documentChanges edit = Some (TextDocumentEdit_ change :: rest) ->
  edits change = before ++ indel :: later ->
  parseSnippet (newText indel) = Some parsed ->
  let o := run (applySnippetWorkspaceEdit edit) w in
  let applications := (fun e => applyEdit (issued change e)) <$> edits change in
  calls o !! List.length before
  = Some (applyEdit (isolated (textDocument change) (range indel) (fst parsed)))
  /\ (forall m, Marker.exec (newText indel) = Some m ->
        JS.hasPattern (default "" (m_2 m)) = false ->
        fst parsed = JS.take (index m) (newText indel)
                     +:+ default "" (m_2 m)
                     +:+ JS.drop (index m + String.length (m_0 m)) (newText indel))
  /\ take (List.length (edits change)) (calls o) = applications
  /\ Forall (fun c => forall e, c <> applyEdit e) (drop (List.length (edits change)) (calls o))
  /\ store (run (applyGroup change) w) = fold_left (fun w c => after c w) applications w.
Proof.
  intros Hc He Hp o applications. subst o.
  rewrite (run_command _ _ _ _ Hc). cbv zeta. rewrite run_applyGroup.
  cbn [calls result store]. fold applications.
  assert (List.length applications = List.length (edits change)) as Hlen
    by (unfold applications; apply length_fmap).
  repeat split.
  - rewrite lookup_app_l by (rewrite Hlen, He, length_app; simpl; lia).
    unfold applications. rewrite He, fmap_app, fmap_cons.
    rewrite lookup_app_r by (rewrite length_fmap; lia).
    rewrite length_fmap, Nat.sub_diag. simpl. unfold issued. by rewrite Hp.
  - intros m Hm Hd. rewrite (parseSnippet_plain _ _ Hm Hd) in Hp. by injection Hp as <-.
  - rewrite <- Hlen. by rewrite take_app_length.
  - rewrite <- Hlen, drop_app_length. rewrite run_placeSelection.
    destruct (fst _) as [r|]; [|constructor]. cbv zeta.
    destruct (String.eqb _ _); cbn [calls]; repeat constructor; discriminate.
  - unfold applications. generalize (edits change). intros es. revert w.
    induction es as [|e es IH]; intros w; [reflexivity|]. simpl. apply IH.
Qed.

Lemma marker_edit_isolated_call_example :
  let indel := Sample.insert 0 4 "let ${0:name} = 1;" in
  let change :=
    Sample.group Sample.lib
      [Sample.insert 3 0 "use std::fmt;"; indel; Sample.insert 1 0 "}"] in
  let o := run (applySnippetWorkspaceEdit (whole change)) (Editor.open Sample.lib "fn f() {") in
  parseSnippet (newText indel) = Some ("let name = 1;"%string, (4, 4))
  /\ calls o !! 1%nat
     = Some (applyEdit (isolated (textDocument change) (Range_create 0 4 0 4) "let name = 1;")).
Proof.
  intros indel change o. split; [reflexivity|].
  exact (proj1 (marker_edit_isolated_call (whole change) change []
                  [Sample.insert 3 0 "use std::fmt;"] [Sample.insert 1 0 "}"]
                  indel ("let name = 1;"%string, (4, 4))
                  (Editor.open Sample.lib "fn f() {") eq_refl eq_refl eq_refl)).
Defined.

(** C10.  Of a [documentChanges] list with several elements only the
    first is processed: the command is the same program as for the
    workspace edit that holds the first change alone, so the later
    changes add nothing to the calls, the selection or the line drift,
    and every call it makes names the document of the first change
    only. *)
Theorem only_first_change_processed :
  (forall changes0 (c : DocumentChange) (rest : list DocumentChange),
     applySnippetWorkspaceEdit {| changes := changes0; documentChanges := Some (c :: rest) |}
     = applySnippetWorkspaceEdit {| changes := changes0; documentChanges := Some [c] |})
  /\ (forall changes0 (change : TextDocumentEdit) (rest : list DocumentChange)
             (W : Type) (S : DocumentStore W) (w : W),
        Forall (confinedTo (textDocument change))
          (calls (run (applySnippetWorkspaceEdit
                         {| changes := changes0;
                            documentChanges := Some (TextDocumentEdit_ change :: rest) |}) w))).
Proof.
  split; [reflexivity|].
  intros changes0 change rest W S w.
  rewrite (run_command _ change rest) by reflexivity. cbv zeta. cbn [calls].
  rewrite run_applyGroup. cbn [calls result store]. apply Forall_app. split.
  - apply Forall_fmap, Forall_forall. intros indel _. unfold issued, confinedTo, compose.
    destruct (parseSnippet (newText indel)); (split; [reflexivity|]).
    + by eexists.
    + exists (edits change). by destruct change.
  - rewrite run_placeSelection. destruct (fst _) as [r|]; [|constructor].
    cbv zeta. destruct (String.eqb _ _); cbn [calls]; repeat constructor.
Qed.

(** * Further properties of the code *)

(** ** Lines of a text *)

Section SplitFacts.

Implicit Types s : string.

Lemma split_nonempty sep s : JS.split sep s <> [].
Proof.
  destruct s as [|c s]; simpl; [discriminate|].
  destruct (Ascii.eqb c sep); [discriminate|].
  destruct (JS.split sep s); discriminate.
Qed.

Lemma join_cons_char sep c piece pieces :
  JS.join sep (String c piece :: pieces) = String c (JS.join sep (piece :: pieces)).
Proof. destruct pieces; reflexivity. Qed.

Lemma join_split sep s : JS.join (String sep "") (JS.split sep s) = s.
Proof.
  induction s as [|c s IH]; [reflexivity|]. cbn [JS.split].
  pose proof (split_nonempty sep s) as Hne.
  destruct (Ascii.eqb c sep) eqn:Hc.
  - apply Ascii.eqb_eq in Hc as ->.
    destruct (JS.split sep s) as [|piece pieces]; [done|].
    change (JS.join (String sep "") ("" :: piece :: pieces))
      with (String sep (JS.join (String sep "") (piece :: pieces))).
    by rewrite IH.
  - destruct (JS.split sep s) as [|piece pieces]; [done|].
    rewrite join_cons_char, IH. reflexivity.
Qed.

Lemma length_split s : Z.of_nat (List.length (JS.split JS.LF s)) = countLines s + 1.
Proof.
  induction s as [|c s IH]; [reflexivity|]. cbn [JS.split countLines].
  pose proof (split_nonempty JS.LF s) as Hne.
  destruct (Ascii.eqb c JS.LF).
  - cbn [List.length]. lia.
  - destruct (JS.split JS.LF s) as [|piece pieces]; [done|].
    cbn [List.length] in *. lia.
Qed.

Lemma split_pieces sep s : Forall (fun piece => JS.has sep piece = false) (JS.split sep s).
Proof.
  induction s as [|c s IH]; [by repeat constructor|]. cbn [JS.split].
  destruct (Ascii.eqb c sep) eqn:Hc; [by constructor|].
  destruct (JS.split sep s) as [|piece pieces].
  - constructor; [|constructor]. simpl. by rewrite Hc.
  - inversion IH as [|? ? Hp Hps]; subst. constructor; [|exact Hps].
    simpl. by rewrite Hc, Hp.
Qed.

Lemma split_append_line sep s t :
  JS.has sep s = false ->
  JS.split sep (s +:+ String sep t) = s :: JS.split sep t.
Proof.
  induction s as [|c s IH]; simpl.
  - intros _. by rewrite Ascii.eqb_refl.
  - intros [Hc Hs]%orb_false_elim. rewrite Hc, (IH Hs). reflexivity.
Qed.

Lemma countLines_app s t : countLines (s +:+ t) = countLines s + countLines t.
Proof. induction s as [|c s IH]; simpl; [reflexivity|]. rewrite IH. lia. Qed.

End SplitFacts.

(** ** More on the parser *)

Section ParserMore.

Implicit Types s snip d : string.

Lemma matchHere_dollar s :
  Marker.matchHere s <> None -> exists s', s = String "$" s'.
Proof.
  unfold Marker.matchHere. intros Hm.
  destruct (JS.startsWith "$0" s) eqn:H0.
  { apply startsWith_split in H0. rewrite H0. by eexists. }
  destruct (JS.startsWith "${0:" s) eqn:H1; [|done].
  apply startsWith_split in H1. rewrite H1. by eexists.
Qed.

Lemma text_length (d : option string) :
  JS.length (Marker.text d) = syntaxLength d + JS.length (default ""%string d).
Proof.
  unfold JS.length. destruct d as [d|]; [|reflexivity].
  unfold Marker.text. rewrite !length_append. simpl. lia.
Qed.

Lemma text_countLines (d : option string) :
  countLines (Marker.text d) = countLines (default ""%string d).
Proof.
  destruct d as [d|]; [|reflexivity].
  unfold Marker.text. rewrite !countLines_app. simpl. lia.
Qed.

Lemma lastIndexOf_bounds s c : -1 <= JS.lastIndexOf s c < JS.length s.
Proof.
  destruct (JS.has c s) eqn:Hs.
  - pose proof (lastIndexOf_present _ _ Hs). lia.
  - rewrite (lastIndexOf_absent _ _ Hs). unfold JS.length. lia.
Qed.

(** [substr] of the middle part of a text. *)
Lemma substr_middle s d t :
  JS.substr (s +:+ d +:+ t) (JS.length s) (JS.length d) = d.
Proof.
  unfold JS.substr, JS.length. cbv zeta. rewrite !length_append.
  replace (Z.of_nat (String.length s) <? 0) with false by (symmetry; apply Z.ltb_ge; lia).
  replace (Z.min _ _) with (Z.of_nat (String.length d)) by lia.
  replace (Z.min _ _) with (Z.of_nat (String.length s)) by lia.
  rewrite !Nat2Z.id, drop_append. apply take_append.
Qed.

Lemma includes_spec s p :
  JS.includes s p = true <-> exists pre post, s = pre +:+ p +:+ post.
Proof.
  unfold JS.includes. split.
  - destruct (JS.indexOf s p) as [i|] eqn:Hi; [|discriminate]. intros _.
    apply indexOf_Some, startsWith_split in Hi.
    exists (JS.take i s), (JS.drop (String.length p) (JS.drop i s)).
    rewrite <- Hi. symmetry. apply take_drop.
  - intros (pre & post & ->). induction pre as [|c pre IH].
    + simpl. destruct (p +:+ post) eqn:E; cbn [JS.indexOf];
        rewrite <- E, startsWith_append; reflexivity.
    + rewrite append_cons. cbn [JS.indexOf].
      destruct (JS.startsWith p _); [reflexivity|].
      by destruct (JS.indexOf (pre +:+ p +:+ post) p).
Qed.

End ParserMore.

(** X1.  [countLines] of two texts put together is the sum of their
    counts: the count depends on the line breaks only, not on where the
    text is cut. *)
Theorem countLines_additive (s t : string) :
  countLines (s +:+ t) = countLines s + countLines t.
Proof. apply countLines_app. Qed.

(** X2.  A replacement text without a dollar sign, the empty text among
    them, has no marker: [parseSnippet] returns [undefined] for it. *)
Theorem parseSnippet_without_dollar (snip : string) :
  JS.has "$" snip = false -> parseSnippet snip = None.
Proof.
  intros Hs. apply parseSnippet_None. induction snip as [|c snip IH]; [reflexivity|].
  cbn [Marker.exec]. simpl in Hs. apply orb_false_elim in Hs as [Hc Hs].
  destruct (Marker.matchHere (String c snip)) as [[m0 m2]|] eqn:Hm.
  - destruct (matchHere_dollar (String c snip)) as [s' [= -> _]]; [by rewrite Hm|].
    discriminate.
  - by rewrite (IH Hs).
Qed.

Lemma parseSnippet_without_dollar_witness :
  parseSnippet "let x = 1;" = None /\ parseSnippet "" = None.
Proof.
  split; apply parseSnippet_without_dollar; reflexivity.
Defined.

Lemma parsed_bounds (snip text : string) (off len : Z) :
  parseSnippet snip = Some (text, (off, len)) ->
  0 <= off /\ 0 <= len /\ off + len + 2 <= JS.length snip
  /\ JS.substr text 0 off = JS.substr snip 0 off.
Proof.
  intros Hp. destruct (Marker.exec snip) as [m|] eqn:He;
    [|by rewrite (proj2 (parseSnippet_None snip) He) in Hp].
  destruct (parseSnippet_exec _ _ He) as (Hsplit & Hm0 & _ & Hlen & _).
  destruct (parsed_prefix _ _ _ _ _ He Hp) as (-> & -> & Hpre).
  assert (JS.length snip
          = Z.of_nat (index m) + JS.length (Marker.text (m_2 m))
            + JS.length (JS.drop (index m + String.length (m_0 m)) snip)) as Hsize.
  { rewrite Hsplit at 1. unfold JS.length. rewrite !length_append, Hlen, Hm0. lia. }
  rewrite text_length in Hsize.
  assert (0 <= JS.length (JS.drop (index m + String.length (m_0 m)) snip))
    by (unfold JS.length; lia).
  assert (2 <= syntaxLength (m_2 m)) by (destruct (m_2 m); simpl; lia).
  repeat split; try (unfold JS.length in *; lia).
  rewrite Hpre. symmetry. apply substr_prefix. unfold JS.length in *. lia.
Qed.

(** X3.  Whatever the default text is, the offset [parseSnippet] returns
    points into the replacement text, with room for the marker after it,
    the length is not negative, and the text before the offset is the
    same in the text returned as in the replacement text. *)
Theorem parseSnippet_offset_in_bounds (snip text : string) (off len : Z) :
  parseSnippet snip = Some (text, (off, len)) ->
  0 <= off /\ 0 <= len /\ off + len + 2 <= JS.length snip
  /\ JS.substr text 0 off = JS.substr snip 0 off.
Proof. apply parsed_bounds. Qed.

Lemma parseSnippet_offset_in_bounds_witness :
  0 <= 4 /\ 0 <= 3 /\ 4 + 3 + 2 <= JS.length "let ${0:foo} = 1;"
  /\ JS.substr "let foo = 1;" 0 4 = JS.substr "let ${0:foo} = 1;" 0 4.
Proof.
  apply (parseSnippet_offset_in_bounds "let ${0:foo} = 1;" "let foo = 1;" 4 3).
  reflexivity.
Defined.

(** X4.  When the default text of the marker has no dollar pattern, the
    offset and length returned cut exactly the default text out of the
    text returned; that text is shorter than the replacement text by the
    marker syntax alone, two characters for the bare marker and five
    otherwise, and has as many line breaks. *)
Theorem parseSnippet_range_selects_default (snip text : string) (off len : Z)
    (m : RegExpMatchArray) :
  Marker.exec snip = Some m ->
  JS.hasPattern (default ""%string (m_2 m)) = false ->
  parseSnippet snip = Some (text, (off, len)) ->
  JS.substr text off len = default ""%string (m_2 m)
  /\ JS.length text = JS.length snip - syntaxLength (m_2 m)
  /\ countLines text = countLines snip.
Proof.
  intros He Hd Hp.
  destruct (parseSnippet_exec _ _ He) as (Hsplit & Hm0 & _ & Hlen & _).
  rewrite (parseSnippet_plain _ _ He Hd) in Hp. injection Hp as <- <- <-.
  set (post := JS.drop (index m + String.length (m_0 m)) snip) in *.
  pose proof (f_equal String.length Hsplit) as Hsize.
  pose proof (f_equal countLines Hsplit) as Hlines.
  rewrite Hm0 in Hsize, Hlines.
  rewrite !length_append in Hsize. rewrite !countLines_app, text_countLines in Hlines.
  pose proof (text_length (m_2 m)) as Ht. unfold JS.length in Ht.
  repeat split.
  - replace (Z.of_nat (index m)) with (JS.length (JS.take (index m) snip))
      by (unfold JS.length; by rewrite Hlen).
    apply substr_middle.
  - unfold JS.length. rewrite !length_append. lia.
  - rewrite !countLines_app. lia.
Qed.

Lemma parseSnippet_range_selects_default_witness :
  JS.substr "let foo = 1;" 4 3 = "foo"%string
  /\ JS.length "let foo = 1;" = JS.length "let ${0:foo} = 1;" - 5
  /\ countLines "let foo = 1;" = countLines "let ${0:foo} = 1;".
Proof.
  apply (parseSnippet_range_selects_default "let ${0:foo} = 1;" "let foo = 1;" 4 3
           {| index := 4; m_0 := "${0:foo}"; m_2 := Some "foo"%string |});
    reflexivity.
Defined.

(** ** More on the grouped edit applier *)

(** X5.  The selection computed for an edit with a marker lies on one
    line and does not run backwards, also when the default text holds
    line breaks; its column is not negative when the start column of the
    edit is not, and its line is not above the start line of the edit
    moved by [lineDelta]. *)
Theorem selection_never_backwards (indel : TextEdit) (lineDelta : Z)
    (parsed : string * (Z * Z)) :
  parseSnippet (newText indel) = Some parsed ->
  let sel := snippetSelection indel lineDelta parsed in
  line (end_ sel) = line (start sel)
  /\ character (start sel) <= character (end_ sel)
  /\ (0 <= character (start (range indel)) -> 0 <= character (start sel))
  /\ line (start (range indel)) + lineDelta <= line (start sel).
Proof.
  destruct parsed as [text [off len]]. intros Hp.
  destruct (parsed_bounds _ _ _ _ Hp) as (Hoff & Hlen & _ & _).
  unfold snippetSelection, Range_create. cbv zeta. cbn [start end_ line character].
  set (prefix := JS.substr text 0 off).
  pose proof (lastIndexOf_bounds prefix JS.LF) as Hlast.
  pose proof (countLines_nonneg prefix) as Hlines.
  destruct (JS.lastIndexOf prefix JS.LF =? -1); repeat split; lia.
Qed.

Lemma selection_never_backwards_witness :
  let indel := Sample.insert 2 4 ("${0:a" +:+ JS.nl +:+ "b}") in
  let sel := snippetSelection indel 0 ("a" +:+ JS.nl +:+ "b", (0, 3)) in
  line (end_ sel) = line (start sel)
  /\ character (start sel) <= character (end_ sel)
  /\ (0 <= character (start (range indel)) -> 0 <= character (start sel))
  /\ line (start (range indel)) + 0 <= line (start sel).
Proof.
  intros indel sel.
  apply (selection_never_backwards indel 0 ("a" +:+ JS.nl +:+ "b", (0, 3))).
  reflexivity.
Defined.

(** X6.  The line of the selection that the loop ends with is the start
    line of the last edit with a marker, plus the line change of the
    nearest edit without a marker before it, or 0 when there is none,
    plus the line breaks of the replacement text before the marker. *)
Theorem selection_line_uses_last_plain_edit {W : Type} `{DocumentStore W}
    (change : TextDocumentEdit) (before later : list TextEdit) (indel : TextEdit)
    (m : RegExpMatchArray) (w : W) :
  edits change = before ++ indel :: later ->
  Marker.exec (newText indel) = Some m ->
  Forall (fun e => hasMarker e = false) later ->
  exists sel,
    fst (result (run (applyGroup change) w)) = Some sel
    /\ line (start sel)
       = line (start (range indel))
         + from_option lineChange 0 (last (filter (fun e => hasMarker e = false) before))
         + countLines (JS.take (index m) (newText indel)).
Proof.
  intros He Hm Hl.
  destruct (parseSnippet_exec _ _ Hm) as (_ & _ & _ & _ & Hp).
  eexists. split.
  - rewrite run_applyGroup. cbn [result]. rewrite He.
    apply (selection_last _ _ _ _ _ Hp Hl).
  - fold (lineDeltaAfter before). rewrite lineDeltaAfter_last.
    destruct (parsed_prefix _ _ _ _ _ Hm Hp) as (_ & _ & Hpre).
    unfold snippetSelection, Range_create. cbv zeta. cbn [start line].
    by rewrite Hpre.
Qed.

Lemma selection_line_uses_last_plain_edit_witness :
  let before := [Sample.insert 0 0 ("use a;" +:+ JS.nl); Sample.insert 9 0 "$0";
                 Sample.insert 3 0 ("use b;" +:+ JS.nl +:+ "use c;" +:+ JS.nl)] in
  let indel := Sample.insert 7 2 "${0:todo}" in
  let change := Sample.group Sample.lib (before ++ [indel]) in
  exists sel,
    fst (result (run (applyGroup change) (Editor.open Sample.lib Sample.source))) = Some sel
    /\ line (start sel) = 7 + 2 + 0.
Proof.
  intros before indel change.
  exact (selection_line_uses_last_plain_edit change before [] indel
           {| index := 0; m_0 := "${0:todo}"; m_2 := Some "todo"%string |}
           (Editor.open Sample.lib Sample.source) eq_refl eq_refl (Forall_nil_2 _)).
Defined.

(** X7.  The calls of the command on a grouped edit are one application
    per edit of the group, in order, followed by nothing, or by the
    question for the active document and one selection, or by that
    question and a switch to the edited document.  So at most one
    selection is placed, never together with a switch, and a group
    without edits makes no call. *)
Theorem calls_shape {W : Type} `{DocumentStore W}
    (edit : WorkspaceEdit) (change : TextDocumentEdit) (rest : list DocumentChange)
    (w : W) :
  documentChanges edit = Some (TextDocumentEdit_ change :: rest) ->
  let o := run (applySnippetWorkspaceEdit edit) w in
  let target := uri (textDocument change) in
  (exists tail,
     calls o = ((fun e => applyEdit (issued change e)) <$> edits change) ++ tail
     /\ (tail = []
         \/ (exists r, tail = [document; selectRange r])
         \/ tail = [document; loadFile target; jumpTo target]))
  /\ (edits change = [] -> calls o = []).
Proof.
  intros Hc o target. subst o. rewrite (run_command _ _ _ _ Hc). cbv zeta.
  rewrite run_applyGroup. cbn [calls result store]. rewrite run_placeSelection.
  split.
  - eexists. split; [reflexivity|].
    destruct (fst _) as [r|]; [|by left]. cbv zeta.
    destruct (String.eqb _ _); cbn [calls]; [right; left; by eexists | by right; right].
  - intros ->. reflexivity.
Qed.

Lemma calls_shape_witness :
  let change := Sample.group Sample.lib [] in
  calls (run (applySnippetWorkspaceEdit (whole change)) (Editor.open Sample.lib Sample.source))
  = [].
Proof.
  intros change.
  exact (proj2 (calls_shape (whole change) change []
                  (Editor.open Sample.lib Sample.source) eq_refl) eq_refl).
Defined.

(** X8.  A selection is placed exactly when some edit of the group has
    a marker and the edited document is the active one once the edits
    have been applied. *)
Theorem selection_placed_iff {W : Type} `{DocumentStore W}
    (edit : WorkspaceEdit) (change : TextDocumentEdit) (rest : list DocumentChange)
    (w : W) :
  documentChanges edit = Some (TextDocumentEdit_ change :: rest) ->
  let group := run (applyGroup change) w in
  let o := run (applySnippetWorkspaceEdit edit) w in
  (exists r, selectRange r ∈ calls o)
  <-> existsb hasMarker (edits change) = true
      /\ fst (handle document (store group)) = uri (textDocument change).
Proof.
  intros Hc group o. subst o. rewrite (run_command _ _ _ _ Hc). cbv zeta.
  fold group. cbn [calls]. rewrite run_placeSelection.
  assert (forall r, selectRange r ∉ calls group) as Hgroup.
  { intros r. unfold group. rewrite run_applyGroup. cbn [calls].
    intros (e & [=] & _)%list_elem_of_fmap. }
  assert (result group = fold_left nextState (edits change) (None, 0)) as Hres
    by (unfold group; by rewrite run_applyGroup).
  destruct (existsb hasMarker (edits change)) eqn:Hm.
  - destruct (selection_some _ (None, 0) Hm) as [r Hr]. rewrite Hres, Hr. cbv zeta.
    destruct (String.eqb _ _) eqn:Ha; cbn [calls].
    + apply String.eqb_eq in Ha. split; [done|]. intros _. exists r.
      apply elem_of_app. right. apply list_elem_of_In. simpl. auto.
    + apply String.eqb_neq in Ha. split; [|by intros [_ ?]].
      intros [r' [Hin | Hin]%elem_of_app]; [by destruct (Hgroup r')|].
      apply list_elem_of_In in Hin. simpl in Hin.
      destruct Hin as [|[|[|[]]]]; discriminate.
  - rewrite Hres, selection_plain by (by apply existsb_hasMarker). simpl.
    split; [|by intros [? _]].
    intros [r' [Hin | Hin]%elem_of_app]; [by destruct (Hgroup r')|].
    by apply elem_of_nil in Hin.
Qed.

Lemma selection_placed_iff_witness :
  let change := Sample.group Sample.lib [Sample.insert 2 4 "${0:foo}"] in
  exists r,
    selectRange r
    ∈ calls (run (applySnippetWorkspaceEdit (whole change))
               (Editor.open Sample.lib Sample.source)).
Proof.
  intros change.
  apply (selection_placed_iff (whole change) change []
           (Editor.open Sample.lib Sample.source) eq_refl).
  split; reflexivity.
Defined.

(** X9.  A group of one edit without a marker is handed to the store
    once, as it came: the command makes the single call
    [workspace.applyEdit] of the group, whose only text edit is that
    edit. *)
Theorem single_plain_edit_applied_once {W : Type} `{DocumentStore W}
    (edit : WorkspaceEdit) (change : TextDocumentEdit) (rest : list DocumentChange)
    (indel : TextEdit) (w : W) :
  documentChanges edit = Some (TextDocumentEdit_ change :: rest) ->
  edits change = [indel] ->
  hasMarker indel = false ->
  let o := run (applySnippetWorkspaceEdit edit) w in
  calls o = [applyEdit (whole change)]
  /\ store o = after (applyEdit (whole change)) w
  /\ flat_map textEditsOf (calls o) = [indel].
Proof.
  intros Hc He Hm o.
  destruct (plain_group_applied_per_edit edit change rest w Hc) as (_ & Hcalls & Hstore).
  { rewrite He. simpl. by rewrite Hm. }
  rewrite He in Hcalls, Hstore. simpl in Hcalls, Hstore.
  repeat split; [exact Hcalls | exact Hstore |].
  subst o. rewrite Hcalls. simpl. rewrite He. reflexivity.
Qed.

Lemma single_plain_edit_applied_once_witness :
  let indel := Sample.insert 0 0 "// note " in
  let change := Sample.group Sample.lib [indel] in
  calls (run (applySnippetWorkspaceEdit (whole change)) (Editor.open Sample.lib Sample.source))
  = [applyEdit (whole change)].
Proof.
  intros indel change.
  exact (proj1 (single_plain_edit_applied_once (whole change) change [] indel
                  (Editor.open Sample.lib Sample.source) eq_refl eq_refl eq_refl)).
Defined.

(** X10.  When every edit of the group has a marker, every edit is
    applied exactly once: the applications are, in the order of the
    group, one isolated edit per edit of the group, at the range of that
    edit and with the text [parseSnippet] returned for it. *)
Theorem marker_only_group_applied_once_each {W : Type} `{DocumentStore W}
    (change : TextDocumentEdit) (w : W) :
  forallb hasMarker (edits change) = true ->
  Forall2
    (fun indel c =>
       exists parsed,
         parseSnippet (newText indel) = Some parsed
         /\ c = applyEdit (isolated (textDocument change) (range indel) (fst parsed)))
    (edits change) (calls (run (applyGroup change) w))
  /\ range <$> flat_map textEditsOf (calls (run (applyGroup change) w))
     = range <$> edits change.
Proof.
  intros Hall. rewrite run_applyGroup. cbn [calls].
  induction (edits change) as [|e es IH]; [split; [constructor | reflexivity]|].
  simpl in Hall. apply andb_prop in Hall as [He Hes].
  destruct (IH Hes) as [IH1 IH2]. unfold hasMarker in He.
  rewrite fmap_cons. cbn [flat_map]. rewrite fmap_app, IH2.
  unfold issued at 1 3.
  destruct (parseSnippet (newText e)) as [parsed|] eqn:Hp; [|discriminate].
  split; [|reflexivity]. constructor; [by exists parsed | exact IH1].
Qed.

Lemma marker_only_group_applied_once_each_witness :
  let first := Sample.insert 0 0 "$0" in
  let second := Sample.insert 5 0 "${0:x}" in
  let change := Sample.group Sample.lib [first; second] in
  range <$> flat_map textEditsOf
              (calls (run (applyGroup change) (Editor.open Sample.lib Sample.source)))
  = [range first; range second].
Proof.
  intros first second change.
  exact (proj2 (marker_only_group_applied_once_each change
                  (Editor.open Sample.lib Sample.source) eq_refl)).
Defined.

(** X11.  The ranges of the edits are passed on as they came: every text
    edit in every call to [workspace.applyEdit] has the range of an edit
    of the group, whatever lines the applications before it added or
    removed. *)
Theorem ranges_never_adjusted {W : Type} `{DocumentStore W}
    (edit : WorkspaceEdit) (change : TextDocumentEdit) (rest : list DocumentChange)
    (w : W) :
  documentChanges edit = Some (TextDocumentEdit_ change :: rest) ->
  Forall (fun c => Forall (fun e => range e ∈ range <$> edits change) (textEditsOf c))
    (calls (run (applySnippetWorkspaceEdit edit) w)).
Proof.
  intros Hc. rewrite (run_command _ _ _ _ Hc). cbv zeta. rewrite run_applyGroup.
  cbn [calls result store]. apply Forall_app. split.
  - apply Forall_fmap, Forall_forall. intros indel Hin. unfold compose, issued.
    destruct (parseSnippet (newText indel)) as [parsed|]; simpl; rewrite ?app_nil_r.
    + constructor; [|constructor]. simpl. apply list_elem_of_fmap. by exists indel.
    + apply Forall_forall. intros e He. apply list_elem_of_fmap. by exists e.
  - rewrite run_placeSelection. destruct (fst _) as [r|]; [|constructor].
    cbv zeta. destruct (String.eqb _ _); cbn [calls]; repeat constructor.
Qed.

Lemma ranges_never_adjusted_witness :
  let change :=
    Sample.group Sample.lib
      [Sample.insert 0 0 ("use a;" +:+ JS.nl); Sample.insert 7 2 "${0:todo}"] in
  Forall (fun c => Forall (fun e => range e ∈ range <$> edits change) (textEditsOf c))
    (calls (run (applySnippetWorkspaceEdit (whole change))
              (Editor.open Sample.lib Sample.source))).
Proof.
  intros change.
  exact (ranges_never_adjusted (whole change) change []
           (Editor.open Sample.lib Sample.source) eq_refl).
Defined.

(** ** The commands *)

Section CommandFacts.

Context {W : Type} `{Cmd.Host W}.

Lemma exec_bind {A B : Type} (p : Cmd.t A) (f : A -> Cmd.t B) (w : W) :
  Cmd.exec (p ≫= f) w
  = let tr := Cmd.exec p w in
    match Cmd.value tr with
    | Some a =>
        let tr' := Cmd.exec (f a) (Cmd.host tr) in
        {| Cmd.value := Cmd.value tr'; Cmd.host := Cmd.host tr';
           Cmd.ops := Cmd.ops tr ++ Cmd.ops tr' |}
    | None => {| Cmd.value := None; Cmd.host := Cmd.host tr; Cmd.ops := Cmd.ops tr |}
    end.
Proof.
  revert w; induction p as [a|e|o k IH]; intros w.
  - simpl. by destruct (Cmd.exec (f a) w).
  - reflexivity.
  - change (Cmd.Do o k ≫= f) with (Cmd.Do o (fun x => k x ≫= f)).
    simpl. destruct (Cmd.react o w) as [a w']. rewrite IH. cbv zeta.
    by destruct (Cmd.value (Cmd.exec (k a) w')).
Qed.

Lemma exec_perform (o : Cmd.op) (w : W) :
  Cmd.exec (Cmd.perform o) w
  = {| Cmd.value := Some (fst (Cmd.react o w)); Cmd.host := snd (Cmd.react o w);
       Cmd.ops := [o] |}.
Proof. unfold Cmd.perform. simpl. by destruct (Cmd.react o w). Qed.

End CommandFacts.

Section FormatFacts.

Lemma iterate_length (n : nat) :
  String.length (Nat.iter n (String.append "=") ""%string) = n.
Proof. induction n as [|n IH]; [reflexivity|]. simpl. by rewrite IH. Qed.

Lemma iterate_one_line (n : nat) :
  JS.has JS.LF (Nat.iter n (String.append "=") ""%string) = false.
Proof. induction n as [|n IH]; [reflexivity|]. simpl. exact IH. Qed.

End FormatFacts.

Lemma codeFormat_text (expanded : ra.ExpandedMacro) :
  let title := "// Recursive expansion of " +:+ ra.name expanded +:+ "! macro" in
  exists rule,
    codeFormat expanded
    = Some (title +:+ JS.nl +:+ rule +:+ JS.nl +:+ JS.nl +:+ ra.expansion expanded)
    /\ JS.startsWith "// " rule = true
    /\ JS.length rule = JS.length title + 1
    /\ JS.has JS.LF rule = false.
Proof.
  intros title. unfold codeFormat, JS.repeat.
  set (count := JS.length _ - 3).
  assert (count = Z.of_nat (String.length (ra.name expanded) + 31)) as Hcount.
  { unfold count, JS.length. rewrite !length_append. simpl. lia. }
  replace (count <? 0) with false by (symmetry; apply Z.ltb_ge; lia).
  rewrite Hcount, Nat2Z.id. cbn [mbind option_bind].
  exists ("// " +:+ Nat.iter (String.length (ra.name expanded) + 31) (String.append "=") "").
  split; [|split; [|split]].
  - f_equal. unfold title, JS.nl.
    generalize (Nat.iter (String.length (ra.name expanded) + 31) (String.append "=") ""%string).
    generalize (ra.name expanded), (ra.expansion expanded), (String JS.LF "").
    generalize "// Recursive expansion of "%string, "! macro"%string, "// "%string.
    intros a b c n e l r. by rewrite !append_assoc.
  - reflexivity.
  - unfold title, JS.length. cbn [String.append String.length].
    rewrite !length_append, iterate_length. simpl. lia.
  - simpl. apply iterate_one_line.
Qed.

(** X12.  [codeFormat] never raises: the count passed to [repeat] is
    never negative.  Its result is the title line, a rule, an empty line
    and the expansion; the rule is a comment of one line that is one
    character longer than the title line, because the line break of the
    title is counted. *)
Theorem codeFormat_layout (expanded : ra.ExpandedMacro) :
  let title := "// Recursive expansion of " +:+ ra.name expanded +:+ "! macro" in
  exists rule,
    codeFormat expanded
    = Some (title +:+ JS.nl +:+ rule +:+ JS.nl +:+ JS.nl +:+ ra.expansion expanded)
    /\ JS.startsWith "// " rule = true
    /\ JS.length rule = JS.length title + 1
    /\ JS.has JS.LF rule = false.
Proof. apply codeFormat_text. Qed.

Lemma has_append c (s t : string) : JS.has c (s +:+ t) = JS.has c s || JS.has c t.
Proof. induction s as [|a s IH]; simpl; [reflexivity|]. by rewrite IH, orb_assoc. Qed.

(** The lines of a formatted expansion, for a macro name of one line. *)
Lemma codeFormat_lines (expanded : ra.ExpandedMacro) :
  JS.has JS.LF (ra.name expanded) = false ->
  let title := "// Recursive expansion of " +:+ ra.name expanded +:+ "! macro" in
  exists text rule,
    codeFormat expanded = Some text
    /\ JS.split JS.LF text = title :: rule :: ""%string :: JS.split JS.LF (ra.expansion expanded)
    /\ JS.length rule = JS.length title + 1.
Proof.
  intros Hname title. destruct (codeFormat_text expanded) as (rule & Ht & _ & Hlen & Hrule).
  eexists. exists rule. split; [exact Ht|]. split; [|exact Hlen]. fold title.
  assert (JS.has JS.LF title = false) as Htitle.
  { unfold title. rewrite !has_append, Hname. reflexivity. }
  change (title +:+ JS.nl +:+ rule +:+ JS.nl +:+ JS.nl +:+ ra.expansion expanded)
    with (title +:+ String JS.LF (rule +:+ String JS.LF (String JS.LF (ra.expansion expanded)))).
  rewrite (split_append_line _ _ _ Htitle), (split_append_line _ _ _ Hrule).
  cbn [JS.split]. by rewrite Ascii.eqb_refl.
Qed.

(** X13.  [analyzerStatus] sends one request and echoes its answer line
    by line without loss: the lines echoed, joined by line breaks, are
    the answer; there is one line more than the answer has line breaks,
    and no line holds a line break. *)
Theorem analyzerStatus_echoes_answer {W : Type} `{Cmd.Host W} (w : W) :
  let answer := fst (Cmd.react (Cmd.sendRequest ra.analyzerStatus) w) in
  let tr := Cmd.exec Cmd.analyzerStatus w in
  Cmd.value tr = Some tt
  /\ exists lines,
       Cmd.ops tr = [Cmd.sendRequest ra.analyzerStatus; Cmd.echoLines lines]
       /\ JS.join JS.nl lines = answer
       /\ Z.of_nat (List.length lines) = countLines answer + 1
       /\ Forall (fun l => JS.has JS.LF l = false) lines.
Proof.
  intros answer tr. subst tr answer. unfold Cmd.analyzerStatus. simpl.
  destruct (Cmd.react (Cmd.sendRequest ra.analyzerStatus) w) as [answer w1]. simpl.
  destruct (Cmd.react (Cmd.echoLines _) w1) as [[] w2]. simpl.
  split; [reflexivity|].
  exists (JS.split JS.LF answer). split; [reflexivity|].
  split; [apply join_split|]. split; [apply length_split | apply split_pieces].
Qed.

(** One step of a run, without unfolding the string functions. *)
Ltac step :=
  cbn -[codeFormat JS.split JS.join JS.includes String.append String.eqb Z.eqb].
Ltac step_all :=
  cbn -[codeFormat JS.split JS.join JS.includes String.append String.eqb Z.eqb] in *.

(** X14.  [expandMacro] never raises.  When the document is a Rust
    document and the server answers with an expansion of a macro whose
    name is one line, the command opens a tab and sets the lines of its
    buffer to the title, the rule, an empty line and the lines of the
    expansion, so that the expansion starts on the fourth line; when the
    server answers [null], no tab is opened. *)
Theorem expandMacro_fills_buffer {W : Type} `{Cmd.Host W}
    (isRustDocument : Cmd.TextDocument -> bool) (w : W) :
  let st := fst (Cmd.react Cmd.getCurrentState w) in
  let w1 := snd (Cmd.react Cmd.getCurrentState w) in
  let param :=
    {| ra.ExpandMacroParams.textDocument := identifier (Cmd.uri (Cmd.document st));
       ra.ExpandMacroParams.position := Cmd.position st |} in
  let answer := fst (Cmd.react (Cmd.sendRequest (ra.expandMacro param)) w1) in
  let tr := Cmd.exec (Cmd.expandMacro isRustDocument) w in
  Cmd.value tr = Some tt
  /\ (forall expanded,
        isRustDocument (Cmd.document st) = true ->
        answer = Some expanded ->
        JS.has JS.LF (ra.name expanded) = false ->
        let title := "// Recursive expansion of " +:+ ra.name expanded +:+ "! macro" in
        exists buf rule,
          Cmd.ops tr
          = [Cmd.getCurrentState; Cmd.sendRequest (ra.expandMacro param);
             Cmd.nvimCommand "tabnew" false; Cmd.nvimBuffer;
             Cmd.setLines buf
               (title :: rule :: ""%string :: JS.split JS.LF (ra.expansion expanded)) 0 (-1)]
          /\ JS.length rule = JS.length title + 1)
  /\ (isRustDocument (Cmd.document st) = true ->
      answer = None ->
      Cmd.ops tr = [Cmd.getCurrentState; Cmd.sendRequest (ra.expandMacro param)]).
Proof.
  intros st w1 param answer tr. subst tr answer param w1 st.
  unfold Cmd.expandMacro. split; [|split].
  - step. destruct (Cmd.react Cmd.getCurrentState w) as [st w1]. step.
    destruct (isRustDocument (Cmd.document st)); step; [|reflexivity].
    destruct (Cmd.react (Cmd.sendRequest _) w1) as [[expanded|] w2]; step; [|reflexivity].
    destruct (Cmd.react (Cmd.nvimCommand _ _) w2) as [[] w3]. step.
    destruct (Cmd.react Cmd.nvimBuffer w3) as [buf w4]. step.
    destruct (codeFormat_text expanded) as (rule & -> & _). step.
    by destruct (Cmd.react (Cmd.setLines _ _ _ _) w4) as [[] w5].
  - intros expanded Hrust Hanswer Hname. step.
    destruct (Cmd.react Cmd.getCurrentState w) as [st w1]. step_all.
    rewrite Hrust. step.
    destruct (Cmd.react (Cmd.sendRequest _) w1) as [answer w2]. step_all. subst answer.
    step. destruct (Cmd.react (Cmd.nvimCommand _ _) w2) as [[] w3]. step.
    destruct (Cmd.react Cmd.nvimBuffer w3) as [buf w4]. step.
    destruct (codeFormat_lines expanded Hname) as (text & rule & -> & Hlines & Hlen).
    step. rewrite Hlines.
    destruct (Cmd.react (Cmd.setLines _ _ _ _) w4) as [[] w5]. step.
    by exists buf, rule.
  - intros Hrust Hanswer. step.
    destruct (Cmd.react Cmd.getCurrentState w) as [st w1]. step_all.
    rewrite Hrust. step.
    destruct (Cmd.react (Cmd.sendRequest _) w1) as [answer w2]. step_all. by subst answer.
Qed.

Lemma expandMacro_fills_buffer_witness :
  exists buf rule,
    Cmd.ops (Cmd.exec (Cmd.expandMacro Script.rust) Script.session)
    = [Cmd.getCurrentState;
       Cmd.sendRequest
         (ra.expandMacro
            {| ra.ExpandMacroParams.textDocument := identifier "file:///src/lib.rs";
               ra.ExpandMacroParams.position := {| line := 3; character := 4 |} |});
       Cmd.nvimCommand "tabnew" false; Cmd.nvimBuffer;
       Cmd.setLines buf
         ("// Recursive expansion of vec! macro"%string :: rule :: ""%string
          :: ["{"; "}"]%string) 0 (-1)]
    /\ JS.length rule = JS.length "// Recursive expansion of vec! macro" + 1.
Proof.
  exact (proj1 (proj2 (expandMacro_fills_buffer Script.rust Script.session))
           {| ra.name := "vec"; ra.expansion := "{" +:+ JS.nl +:+ "}" |}
           eq_refl eq_refl eq_refl).
Defined.

(** X15.  [ssr] asks for the rule and clears the command line, and then
    sends a request exactly when the text typed holds the arrow
    [==>>] somewhere: the request carries the text as typed, is never
    parse-only, and the edit applied is the answer to it.  For any other
    input, the empty one among them, nothing is sent or applied. *)
Theorem ssr_needs_arrow {W : Type} `{Cmd.Host W} (w : W) :
  let prompt :=
    Cmd.callAsync "input"
      ["Enter request like this: foo($a:expr, $b:expr) ==>> bar($a, foo($b)): "%string] in
  let clear := Cmd.nvimCommand "normal! :<C-u>" true in
  let input := fst (Cmd.react prompt w) in
  let w2 := snd (Cmd.react clear (snd (Cmd.react prompt w))) in
  let request := Cmd.sendRequest (ra.ssr {| ra.query := input; ra.parseOnly := false |}) in
  let tr := Cmd.exec Cmd.ssr w in
  Cmd.value tr = Some tt
  /\ ((exists pre post, input = pre +:+ "==>>" +:+ post) ->
      Cmd.ops tr = [prompt; clear; request; Cmd.applyEdit (fst (Cmd.react request w2))])
  /\ (~ (exists pre post, input = pre +:+ "==>>" +:+ post) ->
      Cmd.ops tr = [prompt; clear]).
Proof.
  intros prompt clear input w2 request tr. subst tr request w2 input.
  unfold Cmd.ssr. fold prompt clear. step.
  destruct (Cmd.react prompt w) as [input w1]. step.
  destruct (Cmd.react clear w1) as [[] w2]. step.
  rewrite <- (includes_spec input "==>>").
  destruct (String.eqb input "") eqn:Hempty.
  { apply String.eqb_eq in Hempty as ->. step.
    split; [reflexivity|]. split; [discriminate | reflexivity]. }
  destruct (JS.includes input "==>>"); step.
  - destruct (Cmd.react (Cmd.sendRequest _) w2) as [edit w3]. step.
    destruct (Cmd.react (Cmd.applyEdit edit) w3) as [b w4]. step.
    split; [reflexivity|]. split; [reflexivity | done].
  - split; [reflexivity|]. split; [discriminate | reflexivity].
Qed.

Lemma ssr_needs_arrow_witness :
  Cmd.ops (Cmd.exec Cmd.ssr Script.session)
  = [Cmd.callAsync "input"
       ["Enter request like this: foo($a:expr, $b:expr) ==>> bar($a, foo($b)): "%string];
     Cmd.nvimCommand "normal! :<C-u>" true;
     Cmd.sendRequest (ra.ssr {| ra.query := "foo($a) ==>> bar($a)"; ra.parseOnly := false |});
     Cmd.applyEdit {| changes := None; documentChanges := None |}].
Proof.
  exact (proj1 (proj2 (ssr_needs_arrow Script.session))
           (ex_intro _ "foo($a) "%string (ex_intro _ " bar($a)"%string eq_refl))).
Defined.

Lemma labels_of_items (runnables : list ra.Runnable) :
  Cmd.label <$> (Cmd.newRunnableQuickPick <$> runnables) = ra.label <$> runnables.
Proof.
  induction runnables as [|r rs IH]; [reflexivity|].
  rewrite !fmap_cons. f_equal. exact IH.
Qed.

Lemma at_index_items (runnables : list ra.Runnable) (i : Z) :
  Cmd.at_index (Cmd.newRunnableQuickPick <$> runnables) i
  = Cmd.newRunnableQuickPick <$> (if i <? 0 then None else runnables !! Z.to_nat i).
Proof.
  unfold Cmd.at_index. destruct (i <? 0); [reflexivity|]. apply list_lookup_fmap.
Qed.

Lemma run_trace {W : Type} `{Cmd.Host W}
    (isRustDocument : Cmd.TextDocument -> bool) (w : W) :
  let st := fst (Cmd.react Cmd.getCurrentState w) in
  let w1 := snd (Cmd.react Cmd.getCurrentState w) in
  let notice := Cmd.showMessage "Fetching runnable..." in
  let w2 := snd (Cmd.react notice w1) in
  let request :=
    Cmd.sendRequest
      (ra.runnables
         {| ra.RunnablesParams.textDocument := identifier (Cmd.uri (Cmd.document st));
            ra.RunnablesParams.position := Some (Cmd.position st) |}) in
  let runnables := fst (Cmd.react request w2) in
  let w3 := snd (Cmd.react request w2) in
  let menu := Cmd.showQuickpick (ra.label <$> runnables) in
  let idx := fst (Cmd.react menu w3) in
  let tr := Cmd.exec (Cmd.run isRustDocument) w in
  isRustDocument (Cmd.document st) = true ->
  take 4 (Cmd.ops tr) = [Cmd.getCurrentState; notice; request; menu]
  /\ (idx = -1 -> Cmd.value tr = Some tt /\ drop 4 (Cmd.ops tr) = [])
  /\ (forall r,
        0 <= idx -> runnables !! Z.to_nat idx = Some r ->
        Cmd.value tr = Some tt
        /\ exists terminal,
             drop 4 (Cmd.ops tr)
             = [Cmd.createTerminal
                  {| Cmd.name := ra.label r; Cmd.cwd := ra.cwd r; Cmd.env := ra.env r |};
                Cmd.sendText terminal (ra.bin r +:+ " " +:+ JS.join " " (ra.args r))])
  /\ (idx < -1 \/ Z.of_nat (List.length runnables) <= idx ->
      Cmd.value tr = None /\ drop 4 (Cmd.ops tr) = []).
Proof.
  intros st w1 notice w2 request runnables w3 menu idx tr Hrust.
  subst tr idx menu w3 runnables request w2 notice w1 st.
  unfold Cmd.run. step.
  destruct (Cmd.react Cmd.getCurrentState w) as [st w1]. step_all. rewrite Hrust. step.
  destruct (Cmd.react (Cmd.showMessage _) w1) as [[] w2]. step.
  destruct (Cmd.react (Cmd.sendRequest _) w2) as [runnables w3]. cbn in runnables. step.
  rewrite labels_of_items.
  destruct (Cmd.react (Cmd.showQuickpick _) w3) as [idx w4]. cbn in idx. step.
  rewrite at_index_items.
  destruct (idx =? -1) eqn:Hidx.
  { apply Z.eqb_eq in Hidx as ->. step. repeat split; try done; intros; lia. }
  apply Z.eqb_neq in Hidx. destruct (idx <? 0) eqn:Hneg.
  { apply Z.ltb_lt in Hneg. step. repeat split; try done; intros; lia. }
  apply Z.ltb_ge in Hneg.
  destruct (runnables !! Z.to_nat idx) as [r|] eqn:Hr; step.
  - destruct (Cmd.react (Cmd.createTerminal _) w4) as [terminal w5]. step.
    destruct (Cmd.react (Cmd.sendText _ _) w5) as [[] w6]. step.
    split; [reflexivity|]. split; [intros; lia|]. split.
    + intros r' _ [= <-]. split; [reflexivity|]. by exists terminal.
    + intros [|Hlen]; [lia|]. apply lookup_lt_Some in Hr. lia.
  - split; [reflexivity|]. split; [intros; lia|]. split; [discriminate|done].
Qed.

(** X16.  [run] shows the labels of the runnables in the order of the
    server's answer, and the index picked selects the runnable at that
    place of the answer: its label names the terminal, which gets its
    [cwd] and [env] and is sent its [bin] and [args] separated by single
    spaces.  The pick -1 starts nothing; any other index outside the
    answer raises before a terminal is created. *)
Theorem run_starts_picked_runnable {W : Type} `{Cmd.Host W}
    (isRustDocument : Cmd.TextDocument -> bool) (w : W) :
  let st := fst (Cmd.react Cmd.getCurrentState w) in
  let w1 := snd (Cmd.react Cmd.getCurrentState w) in
  let notice := Cmd.showMessage "Fetching runnable..." in
  let w2 := snd (Cmd.react notice w1) in
  let request :=
    Cmd.sendRequest
      (ra.runnables
         {| ra.RunnablesParams.textDocument := identifier (Cmd.uri (Cmd.document st));
            ra.RunnablesParams.position := Some (Cmd.position st) |}) in
  let runnables := fst (Cmd.react request w2) in
  let w3 := snd (Cmd.react request w2) in
  let menu := Cmd.showQuickpick (ra.label <$> runnables) in
  let idx := fst (Cmd.react menu w3) in
  let tr := Cmd.exec (Cmd.run isRustDocument) w in
  isRustDocument (Cmd.document st) = true ->
  take 4 (Cmd.ops tr) = [Cmd.getCurrentState; notice; request; menu]
  /\ (idx = -1 -> Cmd.value tr = Some tt /\ drop 4 (Cmd.ops tr) = [])
  /\ (forall r,
        0 <= idx -> runnables !! Z.to_nat idx = Some r ->
        Cmd.value tr = Some tt
        /\ exists terminal,
             drop 4 (Cmd.ops tr)
             = [Cmd.createTerminal
                  {| Cmd.name := ra.label r; Cmd.cwd := ra.cwd r; Cmd.env := ra.env r |};
                Cmd.sendText terminal (ra.bin r +:+ " " +:+ JS.join " " (ra.args r))])
  /\ (idx < -1 \/ Z.of_nat (List.length runnables) <= idx ->
      Cmd.value tr = None /\ drop 4 (Cmd.ops tr) = []).
Proof. apply run_trace. Qed.

Lemma run_starts_picked_runnable_witness :
  Cmd.value (Cmd.exec (Cmd.run Script.rust) Script.session) = Some tt
  /\ exists terminal,
       drop 4 (Cmd.ops (Cmd.exec (Cmd.run Script.rust) Script.session))
       = [Cmd.createTerminal
            {| Cmd.name := "test f"; Cmd.cwd := Some "/ws"%string;
               Cmd.env := [("RUST_BACKTRACE", "short")]%string |};
          Cmd.sendText terminal "cargo test -- f"].
Proof.
  exact (proj1 (proj2 (proj2 (run_starts_picked_runnable Script.rust Script.session eq_refl)))
           Script.test ltac:(vm_compute; discriminate) eq_refl).
Defined.


(** X17.  When the document is a Rust document for both hosts,
    [runSingle] on a runnable starts the terminal that [run] starts when
    that runnable is picked: the terminal options and the command line
    sent are the same.  On any host, [runSingle] without a runnable, or
    on a document that is not a Rust document, only reads the state of
    the editor and returns. *)
Theorem runSingle_starts_same_terminal {W : Type} `{Cmd.Host W}
    (isRustDocument : Cmd.TextDocument -> bool) :
  (forall (r : ra.Runnable) (w w' : W),
     let st := fst (Cmd.react Cmd.getCurrentState w) in
     let w2 := snd (Cmd.react (Cmd.showMessage "Fetching runnable...")
                      (snd (Cmd.react Cmd.getCurrentState w))) in
     let request :=
       Cmd.sendRequest
         (ra.runnables
            {| ra.RunnablesParams.textDocument := identifier (Cmd.uri (Cmd.document st));
               ra.RunnablesParams.position := Some (Cmd.position st) |}) in
     let runnables := fst (Cmd.react request w2) in
     let idx := fst (Cmd.react (Cmd.showQuickpick (ra.label <$> runnables))
                       (snd (Cmd.react request w2))) in
     isRustDocument (Cmd.document st) = true ->
     isRustDocument (Cmd.document (fst (Cmd.react Cmd.getCurrentState w'))) = true ->
     0 <= idx ->
     runnables !! Z.to_nat idx = Some r ->
     exists opts text terminal terminal',
       drop 4 (Cmd.ops (Cmd.exec (Cmd.run isRustDocument) w))
       = [Cmd.createTerminal opts; Cmd.sendText terminal text]
       /\ Cmd.ops (Cmd.exec (Cmd.runSingle isRustDocument (Some r)) w')
          = [Cmd.getCurrentState; Cmd.createTerminal opts; Cmd.sendText terminal' text])
  /\ (forall (w' : W),
        Cmd.ops (Cmd.exec (Cmd.runSingle isRustDocument None) w') = [Cmd.getCurrentState]
        /\ Cmd.value (Cmd.exec (Cmd.runSingle isRustDocument None) w') = Some tt)
  /\ (forall (r : ra.Runnable) (w' : W),
        isRustDocument (Cmd.document (fst (Cmd.react Cmd.getCurrentState w'))) = false ->
        Cmd.ops (Cmd.exec (Cmd.runSingle isRustDocument (Some r)) w') = [Cmd.getCurrentState]
        /\ Cmd.value (Cmd.exec (Cmd.runSingle isRustDocument (Some r)) w') = Some tt).
Proof.
  split; [|split].
  - intros r w w' st w2 request runnables idx Hrust Hrust' Hidx Hr.
    destruct (run_trace isRustDocument w Hrust) as (_ & _ & Hpick & _).
    destruct (Hpick r Hidx Hr) as (_ & terminal & Hrun).
    unfold Cmd.runSingle. step.
    destruct (Cmd.react Cmd.getCurrentState w') as [st' w1']. step_all.
    rewrite Hrust'. step.
    destruct (Cmd.react (Cmd.createTerminal _) w1') as [terminal' w2']. step.
    destruct (Cmd.react (Cmd.sendText _ _) w2') as [[] w3']. step.
    eexists _, _, terminal, terminal'. split; [exact Hrun | reflexivity].
  - intros w'. unfold Cmd.runSingle. step.
    by destruct (Cmd.react Cmd.getCurrentState w') as [st' w1'].
  - intros r w' Hrust'. unfold Cmd.runSingle. step.
    destruct (Cmd.react Cmd.getCurrentState w') as [st' w1']. step_all.
    by rewrite Hrust'.
Qed.

Lemma runSingle_starts_same_terminal_witness :
  exists opts text terminal terminal',
    drop 4 (Cmd.ops (Cmd.exec (Cmd.run Script.rust) Script.session))
    = [Cmd.createTerminal opts; Cmd.sendText terminal text]
    /\ Cmd.ops (Cmd.exec (Cmd.runSingle Script.rust (Some Script.test)) Script.session)
       = [Cmd.getCurrentState; Cmd.createTerminal opts; Cmd.sendText terminal' text].
Proof.
  exact (proj1 (runSingle_starts_same_terminal Script.rust) Script.test
           Script.session Script.session eq_refl eq_refl
           ltac:(vm_compute; discriminate) eq_refl).
Defined.
